(** * asyncqlio / katagawa: query compilation and result grouping

    A shallow embedding of [asyncqlio/orm/schema/column.py] and
    [katagawa/orm/query.py].  Python dictionaries are finite maps,
    exceptions are values of an error monad, objects that are mutated are
    threaded explicitly, and [itertools.count] is a natural number that is
    passed along. *)

From stdpp Require Import base option list gmap strings pretty.
From Stdlib Require Import ZArith Lia.
From Equations Require Import Equations.
From Equations.Prop Require Import Logic.


(** ** The Python runtime, as far as the two files use it *)
Module py.

(** Values that are bound as query parameters and read back from rows. *)
Inductive pyval : Type :=
| VNone
| VInt (z : Z)
| VStr (s : string).

#[export] Instance pyval_eq_dec : EqDecision pyval.
Proof. solve_decision. Defined.

(** [str(v)], which is what [{}] in [str.format] renders. *)
Definition str (v : pyval) : string :=
  match v with
  | VNone => "None"
  | VInt z => pretty z
  | VStr s => s
  end.

Inductive exc_type : Type :=
| TypeError | KeyError | AttributeError | IndexError | StopAsyncIteration.

#[export] Instance exc_type_eq_dec : EqDecision exc_type.
Proof. solve_decision. Defined.

(** An exception instance: its class, its message, and the exception that
    was being handled when it was raised ([__context__], set implicitly by
    a [raise] inside an [except] block). *)
#[warnings="-register-all"] Inductive Exception : Type :=
  mkException {
    exc_class : exc_type;
    exc_msg : string;
    __context__ : option Exception }.

(** Computations that return or raise. *)
Inductive Result (A : Type) : Type :=
| Ok (a : A)
| Raise (e : Exception).
Arguments Ok {A} a.
Arguments Raise {A} e.

Definition bind {A B} (m : Result A) (k : A → Result B) : Result B :=
  match m with
  | Ok a => k a
  | Raise e => Raise e
  end.

#[export] Instance Result_ret : MRet Result := @Ok.
#[export] Instance Result_bind : MBind Result := λ A B k m, bind m k.

Definition is_ok {A} (m : Result A) : bool :=
  match m with Ok _ => true | Raise _ => false end.

(** [for x in l: r.append(f(x))], stopping at the first exception. *)
Fixpoint traverse {A B} (f : A → Result B) (l : list A) : Result (list B) :=
  match l with
  | [] => Ok []
  | x :: l' =>
      y ← f x; ys ← traverse f l'; Ok (y :: ys)
  end.

(** A [dict] with string keys. *)
Abbreviation dict V := (gmap string V).

(** [d[k]] *)
Definition getitem {V} (d : dict V) (k : string) : Result V :=
  match d !! k with
  | Some v => Ok v
  | None => Raise (mkException KeyError k None)
  end.

(** [d.update(other)] *)
Definition update {V} (d other : dict V) : dict V := other ∪ d.

(** The double quote character, and [sep.join(l)]. *)
Definition dquote : string := String (Ascii.ascii_of_nat 34) "".
Definition join (sep : string) (l : list string) : string := String.concat sep l.

(** [itertools.count()]: [next] returns the current number and advances. *)
Abbreviation count := nat.
Definition next (counter : count) : nat * count := (counter, S counter).


End py.
Import py.


(** ** Schema metadata

    The objects [query.py] and [column.py] work on.  A column knows its
    name and its owning table (both set by [__set_name__]); the SQL text
    reads the table through its [__tablename__], the comparisons of
    columns compare the table objects themselves. *)
Module schema.

Record Column : Type :=
  mkColumn {
    table : string;  (* [self.table.__tablename__] *)
    name : string }.

#[export] Instance Column_eq_dec : EqDecision Column.
Proof. solve_decision. Defined.

(** A column as an object.  [self.table] is a table class, and Python
    compares classes by identity: two table classes are equal only when
    they are one object, whatever their [__tablename__]s say.  [table_id]
    is that identity ([id(self.table)]); [column] is what the SQL text
    reads of the object. *)
Record ColumnObject : Type :=
  mkColumnObject {
    table_id : nat;
    column :> Column }.

(** Modelled from the spec: the [Session] class is not among the source
    files.  [query.py] only reads [session.bind.emit_param], the dialect's
    rendering of a named placeholder. *)
Record Session : Type :=
  mkSession {
    bind_emit_param : string → string }.

(** Modelled from the spec: [md_row.TableRow] is not among the source
    files.  A row object, as far as [map_columns] touches it: the column
    values it stores, [_previous_values] (keyed by column, here by column
    name), the name-mangled [_TableRow__existed] flag, [_session], and the
    relationship data it was handed. *)
Record TableRow : Type :=
  mkTableRow {
    _values : dict pyval;
    _previous_values : dict pyval;
    __existed : bool;
    _session : option Session;
    _relationship_data : list (dict pyval) }.

(** Modelled from the spec: the [Table] and [Relationship] classes are not
    among the source files.  A table class has its columns in declaration
    order ([iter_columns]), its primary key columns ([primary_key.columns]),
    its relationships ([iter_relationships]), and what calling the class
    with keyword arguments does ([__init__] can be overridden by the user,
    so it is a field). *)
Inductive Table : Type :=
  mkTable {
    __tablename__ : string;
    __quoted_name__ : string;
    iter_columns : list Column;
    primary_key : list Column;
    iter_relationships : list Relationship;
    __init__ : dict pyval → Result TableRow }
with Relationship : Type :=
  mkRelationship {
    load_type : string;
    foreign_table : Table;
    join_columns : Column * Column }.

(** Modelled from the spec: [TableRow.get_column_value(column,
    return_default=False)] is not in the source files; the row persistence
    collaborator returns the stored value or the [NO_VALUE] sentinel
    ([None] here). *)
Definition get_column_value (row : TableRow) (column : Column) : option pyval :=
  _values row !! name column.

(** Modelled from the spec: [TableRow._update_relationships(data)] is not in
    the source files; the spec's [attach_relationship_data] mutator
    accumulates the alias-keyed mappings it is given. *)
Definition _update_relationships (row : TableRow) (data : dict pyval) : TableRow :=
  mkTableRow (_values row) (_previous_values row) (__existed row) (_session row)
             (_relationship_data row ++ [data]).

End schema.
Import schema.

(** ** Operators ([orm/operators.py], not among the source files)

    What the two files construct and call.  A comparison holds a column and
    the other operand; a condition is anything with a [generate_sql] that
    takes the placeholder emitter and the shared counter and returns the
    triple [(sql, name, val)]. *)
Module md_operators.

Inductive Operand : Type :=
| Value (v : pyval)
| ColumnRef (c : Column).

Inductive ComparisonOp : Type :=
| Eq (column : Column) (value : Operand)
| NEq (column : Column) (value : Operand)
| Lt (column : Column) (value : Operand)
| Gt (column : Column) (value : Operand)
| Lte (column : Column) (value : Operand)
| Gte (column : Column) (value : Operand).

(** The third component of the triple: a bound value ([None] included) or,
    for a coalescing token, a dictionary of bindings. *)
Inductive tokval : Type :=
| Scalar (v : pyval)
| Coalesced (d : dict pyval).

Record BaseOperator : Type :=
  mkOperator {
    generate_sql : (string → string) → count → (string * option string * tokval) * count }.

(** Sorters wrap the items [order_by] was given. *)
Inductive Sorter : Type :=
| AscSorter (cols : list SortItem)
| DescSorter (cols : list SortItem)
with SortItem : Type :=
| ItemColumn (c : Column)
| ItemSorter (s : Sorter).

(** [Sorter.generate_sql(emitter, counter)] is not in the source files; it
    is an interface the compilation is parametric in. *)
Class SorterSql : Type :=
  sorter_generate_sql : Sorter → (string → string) → count → string.

End md_operators.
Import md_operators.

(** ** [asyncqlio/orm/schema/column.py] *)
Module md_column.

(** What a rich comparison of a column returns: a plain [bool] or an
    operator object. *)
Inductive Compared : Type :=
| Bool (b : bool)
| Operator (op : ComparisonOp).

(** The right-hand side of [==] and [!=]: a column object, or any other
    value. *)
Inductive Comparand : Type :=
| AColumn (c : ColumnObject)
| AValue (v : pyval).

(** [Column.__eq__]: [isinstance(other, Column)] selects the identity
    check [self.table == other.table and self.name == other.name], anything
    else builds an [Eq]. *)
Definition __eq__ (self : ColumnObject) (other : Comparand) : Compared :=
  match other with
  | AColumn other =>
      Bool (bool_decide (table_id self = table_id other)
            && bool_decide (name self = name other))
  | AValue v => Operator (Eq self (Value v))
  end.

(** [Column.__ne__]:
    [self.table != other.table or self.name != other.name], or an [NEq]. *)
Definition __ne__ (self : ColumnObject) (other : Comparand) : Compared :=
  match other with
  | AColumn other =>
      Bool (bool_decide (table_id self ≠ table_id other)
            || bool_decide (name self ≠ name other))
  | AValue v => Operator (NEq self (Value v))
  end.

Definition __lt__ (self : Column) (other : Operand) : ComparisonOp := Lt self other.
Definition __gt__ (self : Column) (other : Operand) : ComparisonOp := Gt self other.
Definition __le__ (self : Column) (other : Operand) : ComparisonOp := Lte self other.
Definition __ge__ (self : Column) (other : Operand) : ComparisonOp := Gte self other.

Definition asc (self : Column) : Sorter := AscSorter [ItemColumn self].
Definition desc (self : Column) : Sorter := DescSorter [ItemColumn self].

(** ["{}".format(self.name)] between double quotes. *)
Definition quoted_name (self : Column) : string :=
  dquote +:+ name self +:+ dquote.

Definition quoted_fullname (self : Column) : string :=
  dquote +:+ table self +:+ dquote +:+ "." +:+ dquote +:+ name self +:+ dquote.

(** [alias_name(table=None, quoted=False)]; [tbl] is the [__tablename__]
    of the table argument. *)
Definition alias_name (self : Column) (tbl : option string) (quoted : bool) : string :=
  let tbl := match tbl with None => table self | Some t => t end in
  let fmt := "t_" +:+ tbl +:+ "_" +:+ name self in
  if quoted then dquote +:+ fmt +:+ dquote else fmt.

End md_column.

(** ** Predicates *)
Module predicate.

(** Modelled from the spec: each comparison operator maps to one SQL
    operator token (the operator classes are not among the source
    files). *)
Definition operator_token (op : ComparisonOp) : string :=
  match op with
  | Eq _ _ => "="
  | NEq _ _ => "!="
  | Lt _ _ => "<"
  | Gt _ _ => ">"
  | Lte _ _ => "<="
  | Gte _ _ => ">="
  end.

Definition column (op : ComparisonOp) : Column :=
  match op with
  | Eq c _ | NEq c _ | Lt c _ | Gt c _ | Lte c _ | Gte c _ => c
  end.

Definition value (op : ComparisonOp) : Operand :=
  match op with
  | Eq _ v | NEq _ v | Lt _ v | Gt _ v | Lte _ v | Gte _ v => v
  end.

(** The placeholder name for the number [n] of the counter, as the [emit]
    closures of [query.py] build it. *)
Definition param_name (n : nat) : string := "param_" +:+ pretty n.

(** Modelled from the spec: [ComparisonOp.generate_sql] is not among the
    source files.  Given the placeholder emitter and the running counter, a
    predicate emits [(sql_fragment, placeholder_name_or_none,
    bound_value_or_none)]; each comparison maps to one SQL operator token.
    A comparison of two columns binds nothing; a comparison with a literal
    takes the next number of the shared counter for its placeholder name
    and binds the literal. *)
Definition generate_sql (op : ComparisonOp) (emitter : string → string) (counter : count)
  : (string * option string * tokval) * count :=
  match value op with
  | ColumnRef other =>
      ((md_column.quoted_fullname (column op) +:+ " " +:+ operator_token op +:+ " "
          +:+ md_column.quoted_fullname other, None, Scalar VNone), counter)
  | Value v =>
      let '(n, counter) := next counter in
      let name := param_name n in
      ((md_column.quoted_fullname (column op) +:+ " " +:+ operator_token op +:+ " "
          +:+ emitter name, Some name, Scalar v), counter)
  end.

(** A comparison as a condition of a query. *)
Definition as_operator (op : ComparisonOp) : BaseOperator :=
  mkOperator (generate_sql op).

End predicate.

(** ** [katagawa/orm/query.py]: [SelectQuery] *)
Module SelectQuery.

Record t : Type :=
  mk {
    session : Session;
    table : option Table;          (* [None] until [set_table] *)
    conditions : list BaseOperator;
    row_limit : option Z;
    row_offset : option Z;
    orderer : option Sorter }.

Definition __init__ (session : Session) : t :=
  mk session None [] None None None.

(** Attribute access on [None]. *)
Definition no_attribute (attr : string) : Exception :=
  mkException AttributeError
    ("'NoneType' object has no attribute '" +:+ attr +:+ "'") None.

(** *** Builder methods; each returns the (mutated) query *)

Definition set_table (self : t) (tbl : Table) : t :=
  mk (session self) (Some tbl) (conditions self) (row_limit self) (row_offset self)
     (orderer self).

Definition from_ (self : t) (tbl : Table) : t := set_table self tbl.

Definition add_condition (self : t) (condition : BaseOperator) : t :=
  mk (session self) (table self) (conditions self ++ [condition]) (row_limit self)
     (row_offset self) (orderer self).

Definition where_ (self : t) (conds : list BaseOperator) : t :=
  foldl add_condition self conds.

Definition limit (self : t) (row_limit : Z) : t :=
  mk (session self) (table self) (conditions self) (Some row_limit) (row_offset self)
     (orderer self).

Definition offset (self : t) (offset : Z) : t :=
  mk (session self) (table self) (conditions self) (row_limit self) (Some offset)
     (orderer self).

Definition set_orderer (self : t) (s : Sorter) : t :=
  mk (session self) (table self) (conditions self) (row_limit self) (row_offset self)
     (Some s).

(** [order_by]: [col] is the tuple of positional arguments, [sort_order]
    the keyword argument. *)
Definition order_by (self : t) (col : list SortItem) (sort_order : string) : Result t :=
  match col with
  | [] => Raise (mkException TypeError "Must provide at least one item to order with" None)
  | [ItemSorter s] => Ok (set_orderer self s)
  | _ =>
      if decide (sort_order = "asc") then Ok (set_orderer self (AscSorter col))
      else if decide (sort_order = "desc") then Ok (set_orderer self (DescSorter col))
      else Raise (mkException TypeError ("Unknown sort order " +:+ sort_order) None)
  end.

(** *** Compilation *)

Definition join_clause (relationship : Relationship) : string :=
  let fmt := "JOIN " +:+ __quoted_name__ (foreign_table relationship) +:+ " " in
  let '(column1, column2) := join_columns relationship in
  fmt +:+ "ON " +:+ md_column.quoted_fullname column1 +:+ " = "
      +:+ md_column.quoted_fullname column2.

(** One iteration of [for relationship in self.table.iter_relationships()]. *)
Definition add_join_path (acc : list Table * list string) (relationship : Relationship)
  : list Table * list string :=
  let '(foreign_tables, joins) := acc in
  if decide (load_type relationship ≠ "joined")
  then (foreign_tables, joins)
  else (foreign_tables ++ [foreign_table relationship],
        joins ++ [join_clause relationship]).

Definition get_required_join_paths (self : t) : Result (list Table * list string) :=
  match table self with
  | None => Raise (no_attribute "iter_relationships")
  | Some tbl => Ok (foldl add_join_path ([], []) (iter_relationships tbl))
  end.

(** One entry of the projection list. *)
Definition column_name (column : Column) : string :=
  dquote +:+ schema.table column +:+ dquote +:+ "." +:+ dquote +:+ name column +:+ dquote
    +:+ " AS " +:+ md_column.alias_name column None true.

(** The columns the projection ranges over:
    [itertools.chain(self.table.iter_columns(), *[tbl.iter_columns() ...])]. *)
Definition projected_columns (tbl : Table) (foreign_tables : list Table) : list Column :=
  iter_columns tbl ++ List.concat (iter_columns <$> foreign_tables).

(** The parameter map: [None] is a legal key of a Python dict, and a
    value may be whatever the operator returned. *)
Abbreviation params_t := (gmap (option string) tokval).

Definition is_None (val : tokval) : bool :=
  match val with Scalar VNone => true | _ => false end.

Definition as_dict (val : tokval) : option (dict pyval) :=
  match val with Coalesced d => Some d | Scalar _ => None end.

(** One iteration of [for condition in self.conditions]. *)
Definition compile_condition (emit_param : string → string)
    (acc : params_t * list string * count) (condition : BaseOperator)
  : params_t * list string * count :=
  let '(params, c_sql, counter) := acc in
  let '((condition_sql, name, val), counter) := generate_sql condition emit_param counter in
  let params :=
    if negb (is_None val) then
      match as_dict val, name with
      | Some d, None => kmap Some (Scalar <$> d) ∪ params   (* [params.update(val)] *)
      | _, _ => <[name := val]> params
      end
    else params in
  (params, c_sql ++ [condition_sql], counter).

Section compile.
Context `{SorterSql}.

Definition generate_sql (self : t) : Result (string * params_t) :=
  let counter : count := 0 in
  '(foreign_tables, joins) ← get_required_join_paths self;
  match table self with
  | None => Raise (no_attribute "iter_columns")
  | Some tbl =>
      let column_names := column_name <$> projected_columns tbl foreign_tables in
      let fmt := "SELECT " +:+ join ", " column_names +:+ " FROM "
                   +:+ __quoted_name__ tbl +:+ " " in
      let '(params, c_sql, counter) :=
        foldl (compile_condition (bind_emit_param (session self)))
              (∅, [], counter) (conditions self) in
      let fmt := fmt +:+ join " " joins in
      let fmt := match c_sql with
                 | [] => fmt
                 | _ => fmt +:+ " WHERE " +:+ join " AND " c_sql
                 end in
      let fmt := match row_limit self with
                 | Some n => fmt +:+ " LIMIT " +:+ pretty n
                 | None => fmt
                 end in
      let fmt := match row_offset self with
                 | Some n => fmt +:+ " OFFSET " +:+ pretty n
                 | None => fmt
                 end in
      let fmt := match orderer self with
                 | Some s =>
                     fmt +:+ " ORDER BY "
                         +:+ sorter_generate_sql s (bind_emit_param (session self)) counter
                 | None => fmt
                 end in
      Ok (fmt, params)
  end.

End compile.

(** *** Methods as computations on the builder object

    A method body receives [self], may read and assign its attributes, and
    returns or raises; the object is in some state afterwards.  The
    computations below thread the object through every statement. *)
Definition Method (A : Type) : Type := t → Result A * t.

#[export] Instance Method_ret : MRet Method := λ A a self, (Ok a, self).
#[export] Instance Method_bind : MBind Method := λ A B k m self,
  match m self with
  | (Ok a, self) => k a self
  | (Raise e, self) => (Raise e, self)
  end.

(** [self.attr], [self.attr = v] and [raise e]. *)
Definition getattr {A} (attr : t → A) : Method A := λ self, (Ok (attr self), self).
Definition setattr (assign : t → t) : Method () := λ self, (Ok (), assign self).
Definition raise {A} (e : Exception) : Method A := λ self, (Raise e, self).

(** [self.table.attr]: fails on [None]. *)
Definition table_attr {A} (attr : string) (read : Table → A) : Method A :=
  tbl ← getattr table;
  match tbl with
  | None => raise (no_attribute attr)
  | Some tbl => mret (read tbl)
  end.

(** [for x in l: acc = body(acc, x)] *)
Fixpoint for_each {A B} (body : B → A → Method B) (acc : B) (l : list A) : Method B :=
  match l with
  | [] => mret acc
  | x :: l => acc ← body acc x; for_each body acc l
  end.

Definition call_get_required_join_paths : Method (list Table * list string) :=
  relationships ← table_attr "iter_relationships" iter_relationships;
  for_each (λ acc relationship, mret (add_join_path acc relationship)) ([], []) relationships.

Section call.
Context `{SorterSql}.

(** [generate_sql], statement by statement.  [counter], [params] and
    [c_sql] are locals, created anew by every call; every [self.x] is a
    read of the object at that point of the body. *)
Definition call_generate_sql : Method (string * params_t) :=
  let counter : count := 0 in
  '(foreign_tables, joins) ← call_get_required_join_paths;
  selected_columns ← table_attr "iter_columns" iter_columns;
  own_columns ← table_attr "iter_columns" iter_columns;
  let column_names :=
    column_name <$> (own_columns ++ List.concat (iter_columns <$> foreign_tables)) in
  quoted_name ← table_attr "__quoted_name__" __quoted_name__;
  let fmt := "SELECT " +:+ join ", " column_names +:+ " FROM " +:+ quoted_name +:+ " " in
  let params : params_t := ∅ in
  let c_sql : list string := [] in
  conds ← getattr conditions;
  '(params, c_sql, counter) ←
    for_each (λ acc condition,
                sess ← getattr session;
                mret (compile_condition (bind_emit_param sess) acc condition))
             (params, c_sql, counter) conds;
  let fmt := fmt +:+ join " " joins in
  let fmt := match c_sql with
             | [] => fmt
             | _ => fmt +:+ " WHERE " +:+ join " AND " c_sql
             end in
  lim ← getattr row_limit;
  let fmt := match lim with
             | Some n => fmt +:+ " LIMIT " +:+ pretty n
             | None => fmt
             end in
  off ← getattr row_offset;
  let fmt := match off with
             | Some n => fmt +:+ " OFFSET " +:+ pretty n
             | None => fmt
             end in
  sorter ← getattr orderer;
  fmt ← match sorter with
        | Some s =>
            sess ← getattr session;
            mret (fmt +:+ " ORDER BY "
                      +:+ sorter_generate_sql s (bind_emit_param sess) counter)
        | None => mret fmt
        end;
  mret (fmt, params).

End call.

(** *** Mapping fetched rows to row objects *)

(** The dictionary comprehension keyed by [column.alias_name(self.table)]:
    a later column overwrites an earlier one with the same alias. *)
Definition alias_mapping (tbl : Table) : dict Column :=
  foldl (λ mapping column,
           <[md_column.alias_name column (Some (__tablename__ tbl)) false := column]> mapping)
        ∅ (iter_columns tbl).

(** One iteration of [for colname in results.keys()]. *)
Definition split_column (mapping : dict Column) (colname : string) (val : pyval)
    (acc : dict pyval * dict pyval) : dict pyval * dict pyval :=
  let '(row_expando, relation_data) := acc in
  match mapping !! colname with
  | Some column => (<[name column := val]> row_expando, relation_data)
  | None => (row_expando, <[colname := val]> relation_data)
  end.

Definition init_failed : string :=
  "Failed to initialize a new row object. Does your `__init__` allow"
    +:+ "all columns to be passed as values?".

(** One iteration of the loop that fills [row._previous_values]. *)
Definition snapshot_column (row : TableRow) (column : Column) : TableRow :=
  match get_column_value row column with
  | Some val =>
      mkTableRow (_values row) (<[name column := val]> (_previous_values row))
                 (__existed row) (_session row) (_relationship_data row)
  | None => row
  end.

Definition map_columns (self : t) (results : dict pyval) : Result TableRow :=
  match table self with
  | None => Raise (no_attribute "iter_columns")
  | Some tbl =>
      let mapping := alias_mapping tbl in
      let '(row_expando, relation_data) :=
        map_fold (split_column mapping) (∅, ∅) results in
      match schema.__init__ tbl row_expando with
      | Raise e =>
          if decide (exc_class e = TypeError)
          then Raise (mkException TypeError init_failed (Some e))
          else Raise e
      | Ok row =>
          let row := foldl snapshot_column row (iter_columns tbl) in
          let row := mkTableRow (_values row) (_previous_values row) true
                                (Some (session self)) (_relationship_data row) in
          Ok (_update_relationships row relation_data)
      end
  end.

(** [map_many( *rows)] *)
Definition map_many (self : t) (rows : list (dict pyval)) : Result TableRow :=
  match rows with
  | [] => Raise (mkException IndexError "tuple index out of range" None)
  | first_row :: runon_rows =>
      tbl_row ← map_columns self first_row;
      Ok (foldl _update_relationships tbl_row runon_rows)
  end.

End SelectQuery.

(** ** [katagawa/orm/query.py]: [_ResultGenerator] *)
Module _ResultGenerator.

(** Modelled from the spec: [BaseResultSet] is not among the source
    files.  The cursor collaborator hands out the rows in the order the
    database produced them; [fetch_row()] returns the next one, or [None]
    from then on.  Its state is the list of rows not handed out yet. *)
Abbreviation BaseResultSet := (list (dict pyval)).

Definition fetch_row (results : BaseResultSet) : option (dict pyval) * BaseResultSet :=
  match results with
  | [] => (None, [])
  | row :: results => (Some row, results)
  end.

Record t : Type :=
  mk {
    query : SelectQuery.t;
    _results : option BaseResultSet;
    _result_deque : list (dict pyval) }.

Definition __init__ (q : SelectQuery.t) : t := mk q None [].

(** [tuple(row[col.alias_name(quoted=False)] for col in
    self.query.table.primary_key.columns)] *)
Definition pkey_of (q : SelectQuery.t) (row : dict pyval) : Result (list pyval) :=
  match SelectQuery.table q with
  | None => Raise (SelectQuery.no_attribute "primary_key")
  | Some tbl =>
      traverse (λ col, getitem row (md_column.alias_name col None false)) (primary_key tbl)
  end.

(** The [while True] loop of [_fill], by recursion on the rows the cursor
    still holds; [last_pkey = None] is Python's [None]. *)
Fixpoint fill_loop (q : SelectQuery.t) (results : BaseResultSet)
    (deque : list (dict pyval)) (last_pkey : option (list pyval)) (rows_filled : nat)
  : Result nat * (BaseResultSet * list (dict pyval)) :=
  match results with
  | [] => (Ok rows_filled, ([], deque))
  | row :: results =>
      let deque := deque ++ [row] in
      match pkey_of q row with
      | Raise e => (Raise e, (results, deque))
      | Ok pkey =>
          match last_pkey with
          | None => fill_loop q results deque (Some pkey) (S rows_filled)
          | Some last =>
              if decide (pkey = last)
              then fill_loop q results deque last_pkey (S rows_filled)
              else (Ok rows_filled, (results, deque))
          end
      end
  end.

Definition _fill (self : t) : Result nat * t :=
  let start :=
    match _result_deque self with
    | [] => Ok (None, 0)
    | first :: _ => last_pkey ← pkey_of (query self) first; Ok (Some last_pkey, 1)
    end in
  match start with
  | Raise e => (Raise e, self)
  | Ok (last_pkey, rows_filled) =>
      match _results self with
      | None => (Raise (SelectQuery.no_attribute "fetch_row"), self)
      | Some results =>
          let '(filled, (results, deque)) :=
            fill_loop (query self) results (_result_deque self) last_pkey rows_filled in
          (filled, mk (query self) (Some results) deque)
      end
  end.

(** [[self._result_deque.popleft() for x in range(0, filled)]] *)
Fixpoint popleft_n (filled : nat) (deque : list (dict pyval))
  : Result (list (dict pyval)) * list (dict pyval) :=
  match filled with
  | 0 => (Ok [], deque)
  | S filled =>
      match deque with
      | [] => (Raise (mkException IndexError "pop from an empty deque" None), [])
      | row :: deque =>
          let '(rows, deque) := popleft_n filled deque in
          (rows ← rows; Ok (row :: rows), deque)
      end
  end.

Section run.
(** [Session.run_select_query] is not in the source files: it hands over
    the result set of the query. *)
Variable run_select_query : SelectQuery.t → BaseResultSet.

(** [if self._results is None: ...] *)
Definition ensure_results (self : t) : t :=
  match _results self with
  | None => mk (query self) (Some (run_select_query (query self))) (_result_deque self)
  | Some _ => self
  end.

Definition map_rows (q : SelectQuery.t) (rows : list (dict pyval)) : Result TableRow :=
  match rows with
  | [row] => SelectQuery.map_columns q row
  | _ => SelectQuery.map_many q rows
  end.

Definition __anext__ (self : t) : Result TableRow * t :=
  let self := ensure_results self in
  let '(filled, self) := _fill self in
  match filled with
  | Raise e => (Raise e, self)
  | Ok 0 => (Raise (mkException StopAsyncIteration "" None), self)
  | Ok filled =>
      let '(rows, deque) := popleft_n filled (_result_deque self) in
      let self := mk (query self) (_results self) deque in
      (rows ← rows; map_rows (query self) rows, self)
  end.

(** [next()]: [None] at the end of the stream. *)
Definition next (self : t) : Result (option TableRow) * t :=
  match __anext__ self with
  | (Ok row, self) => (Ok (Some row), self)
  | (Raise e, self) =>
      if decide (exc_class e = StopAsyncIteration) then (Ok None, self)
      else (Raise e, self)
  end.

(** The rows a generator can still hand out: buffered ones plus those the
    cursor holds.  Every successful [__anext__] makes this smaller, which
    is why [flatten] terminates. *)
Definition pending (self : t) : nat :=
  length (_result_deque self) + length (default [] (_results (ensure_results self))).

(** [flatten()]: the [async for] loop appends every result and ends at
    [StopAsyncIteration]; any other exception propagates. *)
Equations? flatten_loop (self : t) (l : list TableRow)
  : Result (list TableRow) * t by wf (pending self) lt :=
  flatten_loop self l with inspect (__anext__ self) := {
    | exist _ (Ok result, self') Heq => flatten_loop self' (l ++ [result]);
    | exist _ (Raise e, self') Heq =>
        if decide (exc_class e = StopAsyncIteration) then (Ok l, self')
        else (Raise e, self') }.
Proof.
  (* [_fill] moves rows from the cursor to the buffer and loses none *)
  assert (Hloop : ∀ q results deque last_pkey rows_filled,
             let '(_, (results', deque')) :=
               fill_loop q results deque last_pkey rows_filled in
             length deque' + length results' = length deque + length results).
  { clear. intros q results.
    induction results as [|row results IH]; intros deque last_pkey rows_filled; simpl.
    - lia.
    - destruct (pkey_of q row) as [pk|e]; simpl.
      + destruct last_pkey as [last|].
        * destruct (decide (pk = last)).
          -- specialize (IH (deque ++ [row]) (Some last) (S rows_filled)).
             destruct (fill_loop _ _ _ _ _) as [r [results' deque']].
             rewrite IH, length_app. simpl. lia.
          -- rewrite length_app. simpl. lia.
        * specialize (IH (deque ++ [row]) (Some pk) (S rows_filled)).
          destruct (fill_loop _ _ _ _ _) as [r [results' deque']].
          rewrite IH, length_app. simpl. lia.
      + rewrite length_app. simpl. lia. }
  (* [filled] successful pops shorten the buffer by [filled] *)
  assert (Hpopleft : ∀ filled deque rows deque',
             popleft_n filled deque = (Ok rows, deque') →
             length deque = filled + length deque').
  { clear. intros filled.
    induction filled as [|filled IH]; intros deque rows deque'; simpl.
    - intros [= <- <-]. done.
    - destruct deque as [|row deque]; [done|].
      destruct (popleft_n filled deque) as [[rows0|e] deque0] eqn:Hpop; simpl; [|done].
      intros [= <- <-]. by rewrite (IH _ _ _ Hpop). }
  revert Heq. unfold __anext__, pending.
  assert (∃ results, ensure_results self = mk (query self) (Some results) (_result_deque self))
    as [results ->].
  { unfold ensure_results. destruct self as [q [results|] deque]; simpl; eauto. }
  unfold _fill. simpl.
  destruct (match _result_deque self with
            | [] => Ok (None, 0)
            | first :: _ => last_pkey ← pkey_of (query self) first; Ok (Some last_pkey, 1)
            end) as [[last_pkey rows_filled]|e]; [|done].
  specialize (Hloop (query self) results (_result_deque self) last_pkey rows_filled).
  destruct (fill_loop _ results _ last_pkey rows_filled) as [filled [results' deque']].
  destruct filled as [[|filled]|e]; [by simpl| |by simpl].
  cbn [_result_deque query _results].
  destruct (popleft_n (S filled) deque') as [rows deque''] eqn:Hpop.
  destruct rows as [rows|e]; [|by simpl].
  intros [= _ <-]. simpl.
  apply Hpopleft in Hpop. lia.
Qed.

Definition flatten (self : t) : Result (list TableRow) * t := flatten_loop self [].

End run.

End _ResultGenerator.

(** ** Row objects as the mutation queries use them

    [md_row.TableRow._get_insert_sql(emit, session)] and its siblings are
    not among the source files.  A row method is a program that may call
    the [emit] closure it is given any number of times before it returns
    its [(sql, params)] pair. *)
Module md_row.

Inductive Emitting (A : Type) : Type :=
| Return (a : A)
| CallEmit (k : string → Emitting A).
Arguments Return {A} a.
Arguments CallEmit {A} k.

(** The closure [emit] of a [generate_sql]:
    ["param_{}".format(next(counter))]. *)
Definition emit (counter : count) : string * count :=
  let '(n, counter) := next counter in ("param_" +:+ pretty n, counter).

(** Running a row method against the shared counter. *)
Fixpoint run {A} (m : Emitting A) (counter : count) : A * count :=
  match m with
  | Return a => (a, counter)
  | CallEmit k => let '(name, counter) := emit counter in run (k name) counter
  end.

Class RowSql : Type :=
  { _get_insert_sql : TableRow → Session → Emitting (string * dict pyval);
    _get_update_sql : TableRow → Session → Emitting (string * dict pyval);
    _get_delete_sql : TableRow → Session → Emitting (string * dict pyval) }.

(** The loop shared by the three [generate_sql] methods:
    [for row in rows: queries.append(method(row))], one counter for the
    whole loop. *)
Definition compile_row (method : TableRow → Emitting (string * dict pyval))
    (acc : list (string * dict pyval) * count) (row : TableRow)
  : list (string * dict pyval) * count :=
  let '(queries, counter) := acc in
  let '(query, counter) := run (method row) counter in
  (queries ++ [query], counter).

(** What a method call returns to its caller: the receiver itself
    ([return self]) or [None] (no [return] statement). *)
Inductive Returned : Type :=
| ReturnsSelf
| ReturnsNone.

(** [receiver.method(...)] on the value a previous call returned. *)
Definition chained {Q A} (ret : Returned * Q) (attr : string) (method : Q → A) : Result A :=
  match ret with
  | (ReturnsSelf, self) => Ok (method self)
  | (ReturnsNone, _) => Raise (SelectQuery.no_attribute attr)
  end.

End md_row.
Import md_row.

(** ** [katagawa/orm/query.py]: [InsertQuery] *)
Module InsertQuery.

Record t : Type :=
  mk {
    session : Session;
    rows_to_insert : list TableRow }.

Definition __init__ (sess : Session) : t := mk sess [].

Definition add_row (self : t) (row : TableRow) : Returned * t :=
  (ReturnsSelf, mk (session self) (rows_to_insert self ++ [row])).

Definition rows (self : t) (rows : list TableRow) : Returned * t :=
  (ReturnsSelf, foldl (λ self row, snd (add_row self row)) self rows).

Definition generate_sql `{RowSql} (self : t) : list (string * dict pyval) :=
  fst (foldl (compile_row (λ row, _get_insert_sql row (session self)))
             ([], 0) (rows_to_insert self)).

End InsertQuery.

(** ** [katagawa/orm/query.py]: [RowUpdateQuery] *)
Module RowUpdateQuery.

Record t : Type :=
  mk {
    session : Session;
    rows_to_update : list TableRow }.

Definition __init__ (sess : Session) : t := mk sess [].

Definition add_row (self : t) (row : TableRow) : Returned * t :=
  (ReturnsSelf, mk (session self) (rows_to_update self ++ [row])).

Definition rows (self : t) (rows : list TableRow) : Returned * t :=
  (ReturnsSelf, foldl (λ self row, snd (add_row self row)) self rows).

Definition generate_sql `{RowSql} (self : t) : list (string * dict pyval) :=
  fst (foldl (compile_row (λ row, _get_update_sql row (session self)))
             ([], 0) (rows_to_update self)).

End RowUpdateQuery.

(** ** [katagawa/orm/query.py]: [RowDeleteQuery] *)
Module RowDeleteQuery.

Record t : Type :=
  mk {
    session : Session;
    rows_to_delete : list TableRow }.

Definition __init__ (sess : Session) : t := mk sess [].

(** No [return] statement: the call evaluates to [None]. *)
Definition add_row (self : t) (row : TableRow) : Returned * t :=
  (ReturnsNone, mk (session self) (rows_to_delete self ++ [row])).

Definition rows (self : t) (rows : list TableRow) : Returned * t :=
  (ReturnsSelf, foldl (λ self row, snd (add_row self row)) self rows).

Definition generate_sql `{RowSql} (self : t) : list (string * dict pyval) :=
  fst (foldl (compile_row (λ row, _get_delete_sql row (session self)))
             ([], 0) (rows_to_delete self)).

End RowDeleteQuery.

(** ** The vocabulary of the specification

    Definitions that follow the words of the specification; the properties
    below compare them with the code. *)
Module spec.

(** The eagerly joined tables of a table, in relationship-declaration
    order. *)
Definition joined_tables (tbl : Table) : list Table :=
  foreign_table <$> filter (λ r, load_type r = "joined") (iter_relationships tbl).

(** "Collision-free" aliases: distinct (owning table, column name) pairs
    never produce the same alias. *)
Definition alias_collision_free : Prop :=
  ∀ c1 c2 : Column,
    md_column.alias_name c1 None false = md_column.alias_name c2 None false → c1 = c2.

Fixpoint no_underscore (s : string) : bool :=
  match s with
  | EmptyString => true
  | String a s' => negb (bool_decide (a = Ascii.ascii_of_nat 95)) && no_underscore s'
  end.

(** The optional clauses of a compiled SELECT, each empty when its part of
    the builder state is not set. *)
Definition where_clause (c_sql : list string) : string :=
  match c_sql with
  | [] => ""
  | _ => " WHERE " +:+ join " AND " c_sql
  end.

Definition limit_clause (row_limit : option Z) : string :=
  match row_limit with
  | Some n => " LIMIT " +:+ pretty n
  | None => ""
  end.

Definition offset_clause (row_offset : option Z) : string :=
  match row_offset with
  | Some n => " OFFSET " +:+ pretty n
  | None => ""
  end.

Definition order_clause (fragment : option string) : string :=
  match fragment with
  | Some sql => " ORDER BY " +:+ sql
  | None => ""
  end.

(** [SELECT <projection> FROM <table> <joins>] *)
Definition select_clause (tbl : Table) : string :=
  "SELECT "
    +:+ join ", " (SelectQuery.column_name
                     <$> (iter_columns tbl ++ List.concat (iter_columns <$> joined_tables tbl)))
    +:+ " FROM " +:+ __quoted_name__ tbl +:+ " "
    +:+ join " " (SelectQuery.join_clause
                    <$> filter (λ r, load_type r = "joined") (iter_relationships tbl)).

(** The SQL fragments the conditions hand back, in order, when they are
    run one after the other against the shared counter. *)
Fixpoint fragments (emit_param : string → string) (conditions : list BaseOperator)
    (counter : count) : list string :=
  match conditions with
  | [] => []
  | condition :: conditions =>
      let '((sql, _, _), counter) := generate_sql condition emit_param counter in
      sql :: fragments emit_param conditions counter
  end.

Definition raises {A} (r : Result A) : Prop := ∃ e, r = Raise e.

(** [order_by] rejects an empty argument list and every unknown sort
    direction. *)
Definition order_by_rejects (self : SelectQuery.t) : Prop :=
  (∀ sort_order, raises (SelectQuery.order_by self [] sort_order))
  ∧ (∀ col sort_order,
       sort_order ≠ "asc" → sort_order ≠ "desc" →
       raises (SelectQuery.order_by self col sort_order)).







(** Modelled from the spec: the row methods [_get_insert_sql],
    [_get_update_sql] and [_get_delete_sql] are not among the source files.
    The row persistence collaborator produces its [(sql, params)] with the
    placeholder factory it is handed: whatever tokens the factory returns,
    the keys of [params] are among the tokens the row obtained ([got]
    collects them). *)
Fixpoint uses_emitted (m : Emitting (string * dict pyval)) (got : list string) : Prop :=
  match m with
  | Return (_, params) => ∀ k, is_Some (params !! k) → k ∈ got
  | CallEmit k => ∀ name, uses_emitted (k name) (name :: got)
  end.

(** [queries] holds one pair per row, in the order of the rows, each the
    result of the row's method at some state of the counter, and no
    placeholder name is bound in two different pairs. *)
Definition compiled_per_row (queries : list (string * dict pyval)) (rows : list TableRow)
    (method : TableRow → Emitting (string * dict pyval)) : Prop :=
  length queries = length rows
  ∧ (∀ i row, rows !! i = Some row →
              ∃ counter, queries !! i = Some (run (method row) counter).1)
  ∧ (∀ i j pi pj, i ≠ j → queries !! i = Some pi → queries !! j = Some pj →
                  ∀ k, ¬ (is_Some (pi.2 !! k) ∧ is_Some (pj.2 !! k))).

(** The counter after the rows have run their methods one after the
    other, the first one against [counter]. *)
Fixpoint counter_after (method : TableRow → Emitting (string * dict pyval))
    (rows : list TableRow) (counter : count) : count :=
  match rows with
  | [] => counter
  | row :: rows => counter_after method rows (run (method row) counter).2
  end.

(** The maximal runs of consecutive rows that share a key, in order: a
    row joins the run of the row after it when both have the same key, and
    starts a run of its own otherwise. *)
Fixpoint runs {A K} `{EqDecision K} (key : A → K) (rows : list A) : list (list A) :=
  match rows with
  | [] => []
  | r :: rows =>
      match runs key rows with
      | (r' :: g) :: gs =>
          if decide (key r = key r') then (r :: r' :: g) :: gs
          else [r] :: (r' :: g) :: gs
      | _ => [[r]]
      end
  end.

(** The run-on rows at the head of [rows] for the key [k], and what
    follows them. *)
Fixpoint run_on {A K} `{EqDecision K} (key : A → K) (k : K) (rows : list A) : list A :=
  match rows with
  | [] => []
  | r :: rows => if decide (key r = k) then r :: run_on key k rows else []
  end.

Fixpoint after_run {A K} `{EqDecision K} (key : A → K) (k : K) (rows : list A) : list A :=
  match rows with
  | [] => []
  | r :: rows' => if decide (key r = k) then after_run key k rows' else rows
  end.

(** The generator after [i] calls of [__anext__]. *)
Fixpoint advance (run_select_query : SelectQuery.t → _ResultGenerator.BaseResultSet)
    (i : nat) (self : _ResultGenerator.t) : _ResultGenerator.t :=
  match i with
  | 0 => self
  | S i =>
      (_ResultGenerator.__anext__ run_select_query (advance run_select_query i self)).2
  end.

End spec.

(** ** Concrete schemas used to exercise the definitions *)
Module fixtures.

Definition users_id : Column := mkColumn "users" "id".
Definition users_name : Column := mkColumn "users" "name".

(** The default constructor keeps the keyword arguments as column values. *)
Definition default_init (kwargs : dict pyval) : Result TableRow :=
  Ok (mkTableRow kwargs ∅ false None []).

Definition quoted (s : string) : string := dquote +:+ s +:+ dquote.

(** SQL text written with apostrophes where the text has double quotes. *)
Fixpoint sql (s : string) : string :=
  match s with
  | EmptyString => EmptyString
  | String a s' =>
      String (if decide (a = Ascii.ascii_of_nat 39) then Ascii.ascii_of_nat 34 else a) (sql s')
  end.

Definition users : Table :=
  mkTable "users" (quoted "users") [users_id; users_name] [users_id] [] default_init.

Definition sess : Session := mkSession (λ name, "$" +:+ name).

Definition select_users : SelectQuery.t :=
  SelectQuery.from_ (SelectQuery.__init__ sess) users.

(** A stand-in for [Sorter.generate_sql]: the aliases of the wrapped
    columns and the direction. *)
Definition item_sql (item : SortItem) : string :=
  match item with
  | ItemColumn c => md_column.alias_name c None true
  | ItemSorter _ => "?"
  end.

Definition sorter_sql : SorterSql :=
  λ s _ _,
    match s with
    | AscSorter cols => join ", " (item_sql <$> cols) +:+ " ASC"
    | DescSorter cols => join ", " (item_sql <$> cols) +:+ " DESC"
    end.

(** A parent table eagerly joined with its children, and the three rows
    of the grouping scenario: two children for parent 1, one for parent 2. *)
Definition children : Table :=
  mkTable "children" (quoted "children")
          [mkColumn "children" "child"; mkColumn "children" "parent_pk"] [] [] default_init.

Definition parents : Table :=
  mkTable "parents" (quoted "parents") [mkColumn "parents" "pk"] [mkColumn "parents" "pk"]
          [mkRelationship "joined" children
             (mkColumn "children" "parent_pk", mkColumn "parents" "pk")]
          default_init.

Definition select_parents : SelectQuery.t :=
  SelectQuery.from_ (SelectQuery.__init__ sess) parents.

Definition joined_row (pk : Z) (child : string) : dict pyval :=
  {[ "t_parents_pk" := VInt pk; "t_children_child" := VStr child;
     "t_children_parent_pk" := VInt pk ]}.

Definition scenario : list (dict pyval) :=
  [joined_row 1 "a"; joined_row 1 "b"; joined_row 2 "c"].

Definition parents_key (row : dict pyval) : list pyval :=
  [default VNone (row !! "t_parents_pk")].

Definition users_key (row : dict pyval) : list pyval :=
  [default VNone (row !! "t_users_id")].

Definition user_row (id : Z) (name : string) : dict pyval :=
  {[ "t_users_id" := VInt id; "t_users_name" := VStr name ]}.

(** A row the driver returned without the primary-key alias. *)
Definition orphan_row : dict pyval := {[ "t_children_child" := VStr "z" ]}.

(** A table without a primary key. *)
Definition notes : Table :=
  mkTable "notes" (quoted "notes") [mkColumn "notes" "text"] [] [] default_init.

Definition select_notes : SelectQuery.t :=
  SelectQuery.from_ (SelectQuery.__init__ sess) notes.

Definition note_row (text : string) : dict pyval := {[ "t_notes_text" := VStr text ]}.

(** A table whose constructor fails with something other than a
    [TypeError]. *)
Definition broken : Table :=
  mkTable "broken" (quoted "broken") [mkColumn "broken" "id"] [mkColumn "broken" "id"] []
          (λ _, Raise (mkException KeyError "id" None)).

Definition select_broken : SelectQuery.t :=
  SelectQuery.from_ (SelectQuery.__init__ sess) broken.

(** A row whose statements bind its [id] under one placeholder. *)
Definition bind_id (verb : string) (row : TableRow) (sess : Session)
  : Emitting (string * dict pyval) :=
  CallEmit (λ name,
    Return (verb +:+ " users " +:+ bind_emit_param sess name,
            {[ name := default VNone (_values row !! "id") ]})).

Definition row_sql : RowSql :=
  {| _get_insert_sql := bind_id "INSERT INTO";
     _get_update_sql := bind_id "UPDATE";
     _get_delete_sql := bind_id "DELETE FROM" |}.

Definition user (id : Z) : TableRow :=
  mkTableRow {[ "id" := VInt id ]} ∅ false None [].

Definition insert_two : InsertQuery.t :=
  (InsertQuery.rows (InsertQuery.__init__ sess) [user 1; user 2]).2.

Definition update_two : RowUpdateQuery.t :=
  (RowUpdateQuery.rows (RowUpdateQuery.__init__ sess) [user 1; user 2]).2.

Definition delete_two : RowDeleteQuery.t :=
  (RowDeleteQuery.rows (RowDeleteQuery.__init__ sess) [user 1; user 2]).2.






End fixtures.

(** * Properties *)

(** ** Column comparison *)

(** C7. Comparing a column with a column returns a plain boolean, true
    exactly when both have the same table (the same table object) and the
    same name; comparing a column with a value returns an [Eq] operator
    object, never a boolean.  [__ne__] is the dual: the negated boolean, or
    an [NEq] operator. *)
Theorem Column_eq_is_identity_or_predicate (self other : ColumnObject) (v : pyval) :
  (∃ b, md_column.__eq__ self (md_column.AColumn other) = md_column.Bool b
        ∧ (b = true ↔ table_id self = table_id other ∧ name self = name other))
  ∧ md_column.__eq__ self (md_column.AValue v) = md_column.Operator (Eq self (Value v))
  ∧ (∃ b, md_column.__ne__ self (md_column.AColumn other) = md_column.Bool b
          ∧ (b = true ↔ ¬ (table_id self = table_id other ∧ name self = name other)))
  ∧ md_column.__ne__ self (md_column.AValue v) = md_column.Operator (NEq self (Value v)).
Proof.
  repeat split.
  - eexists; split; [reflexivity|].
    rewrite andb_true_iff, !bool_decide_eq_true. tauto.
  - eexists; split; [reflexivity|].
    rewrite orb_true_iff, !bool_decide_eq_true.
    destruct (decide (table_id self = table_id other)),
      (decide (name self = name other)); tauto.
Qed.

(** ** Strings *)

Lemma append_nil_l (s : string) : "" +:+ s = s.
Proof. reflexivity. Qed.

Lemma append_cons (a : Ascii.ascii) (s t : string) : String a s +:+ t = String a (s +:+ t).
Proof. reflexivity. Qed.

Lemma append_assoc (s1 s2 s3 : string) : (s1 +:+ s2) +:+ s3 = s1 +:+ s2 +:+ s3.
Proof.
  induction s1 as [|a s1 IH]; [done|].
  by rewrite !append_cons, IH.
Qed.

Lemma append_nil_r (s : string) : s +:+ "" = s.
Proof.
  induction s as [|a s IH]; [done|].
  by rewrite append_cons, IH.
Qed.

Lemma append_length (s t : string) :
  String.length (s +:+ t) = String.length s + String.length t.
Proof.
  induction s as [|a s IH]; [done|].
  rewrite append_cons. simpl. by rewrite IH.
Qed.

Lemma append_inj_r (s1 s2 t : string) : s1 +:+ t = s2 +:+ t → s1 = s2.
Proof.
  revert s2. induction s1 as [|a s1 IH]; intros [|b s2]; [done| | |].
  - intros Heq. apply (f_equal String.length) in Heq.
    rewrite append_nil_l, append_cons in Heq. simpl in Heq.
    rewrite append_length in Heq. lia.
  - intros Heq. apply (f_equal String.length) in Heq.
    rewrite append_nil_l, append_cons in Heq. simpl in Heq.
    rewrite append_length in Heq. lia.
  - rewrite !append_cons. intros [= -> Heq]. f_equal. by apply IH.
Qed.

(** ** Projection and aliases *)

Lemma get_required_join_paths_fold (rels : list Relationship) (fts : list Table)
    (joins : list string) :
  foldl SelectQuery.add_join_path (fts, joins) rels
  = (fts ++ (foreign_table <$> filter (λ r, load_type r = "joined") rels),
     joins ++ (SelectQuery.join_clause <$> filter (λ r, load_type r = "joined") rels)).
Proof.
  revert fts joins. induction rels as [|r rels IH]; intros fts joins; simpl.
  - by rewrite !app_nil_r.
  - rewrite filter_cons. destruct (decide (load_type r ≠ "joined")) as [Hne|Heq].
    + rewrite decide_False by done. apply IH.
    + apply dec_stable in Heq. rewrite decide_True by done.
      rewrite IH. simpl. by rewrite <- !app_assoc.
Qed.

Lemma underscore_split (t1 t2 n1 n2 : string) :
  spec.no_underscore t1 = true → spec.no_underscore t2 = true →
  t1 +:+ "_" +:+ n1 = t2 +:+ "_" +:+ n2 → t1 = t2 ∧ n1 = n2.
Proof.
  revert t2. induction t1 as [|a t1 IH]; intros [|b t2];
    rewrite ?append_cons, ?append_nil_l; simpl.
  - intros _ _ [= ->]. done.
  - intros _ Hb [= <- _]. rewrite bool_decide_eq_true_2 in Hb by done. done.
  - intros Ha _ [= -> _]. rewrite bool_decide_eq_true_2 in Ha by done. done.
  - intros [_ Ha]%andb_true_iff [_ Hb]%andb_true_iff [= -> Heq].
    destruct (IH _ Ha Hb Heq) as [-> ->]. done.
Qed.

(** The compiled text is the SELECT clause followed by the four optional
    clauses, in this order. *)
Lemma generate_sql_shape `{SorterSql} (q : SelectQuery.t) (tbl : Table) :
  SelectQuery.table q = Some tbl →
  SelectQuery.generate_sql q
  = let '(params, c_sql, counter) :=
      foldl (SelectQuery.compile_condition (bind_emit_param (SelectQuery.session q)))
            (∅, [], 0) (SelectQuery.conditions q) in
    Ok (spec.select_clause tbl
          +:+ spec.where_clause c_sql
          +:+ spec.limit_clause (SelectQuery.row_limit q)
          +:+ spec.offset_clause (SelectQuery.row_offset q)
          +:+ spec.order_clause
                ((λ s, sorter_generate_sql s (bind_emit_param (SelectQuery.session q)) counter)
                   <$> SelectQuery.orderer q),
        params).
Proof.
  intros Htbl.
  unfold SelectQuery.generate_sql, SelectQuery.get_required_join_paths.
  rewrite Htbl. simpl. rewrite get_required_join_paths_fold. simpl.
  destruct (foldl _ _ (SelectQuery.conditions q)) as [[params c_sql] counter].
  unfold spec.select_clause, SelectQuery.projected_columns, spec.joined_tables.
  destruct c_sql as [|c c_sql], (SelectQuery.row_limit q) as [lim|],
    (SelectQuery.row_offset q) as [off|], (SelectQuery.orderer q) as [s|];
    simpl; rewrite ?append_assoc, ?append_nil_r; reflexivity.
Qed.

(** C3, as stated, fails: the alias only concatenates table and column
    name around an underscore, so table [a_b] with column [c] and table
    [a] with column [b_c] share the alias [t_a_b_c]. *)
Lemma alias_name_collides : ¬ spec.alias_collision_free.
Proof.
  intros Hfree.
  specialize (Hfree (mkColumn "a_b" "c") (mkColumn "a" "b_c") eq_refl).
  discriminate Hfree.
Qed.

(** C3, amended. The projection lists every column of the primary table,
    then every column of each joined table in relationship order, each as
    ["table"."column" AS "t_table_column"]; and two columns that belong to
    the same table, or to tables whose names contain no underscore, have
    the same alias only if they are the same (table, name) pair. *)
Theorem projection_order_and_alias `{SorterSql} (q : SelectQuery.t) (tbl : Table)
    (c1 c2 : Column) (quoted : bool) :
  SelectQuery.table q = Some tbl →
  table c1 = table c2
    ∨ (spec.no_underscore (table c1) = true ∧ spec.no_underscore (table c2) = true) →
  (∃ rest params,
      SelectQuery.generate_sql q
      = Ok ("SELECT "
              +:+ join ", " (SelectQuery.column_name
                               <$> (iter_columns tbl
                                      ++ List.concat (iter_columns <$> spec.joined_tables tbl)))
              +:+ " FROM " +:+ rest, params))
  ∧ (md_column.alias_name c1 None quoted = md_column.alias_name c2 None quoted ↔ c1 = c2)
  ∧ md_column.alias_name c1 None false = "t_" +:+ table c1 +:+ "_" +:+ name c1.
Proof.
  intros Htbl Hnames. split; [|split; [|done]].
  - rewrite (generate_sql_shape q tbl Htbl).
    destruct (foldl _ _ (SelectQuery.conditions q)) as [[params c_sql] counter].
    unfold spec.select_clause. eexists _, params.
    rewrite !append_assoc. reflexivity.
  - split; [|by intros ->].
    destruct c1 as [t1 n1], c2 as [t2 n2]. unfold md_column.alias_name. simpl in *.
    intros Heq.
    assert (t1 +:+ "_" +:+ n1 = t2 +:+ "_" +:+ n2) as Hbody.
    { destruct quoted.
      - apply String.app_inj, append_inj_r in Heq. by apply String.app_inj in Heq.
      - by apply String.app_inj in Heq. }
    destruct Hnames as [->|[H1 H2]].
    + do 2 apply String.app_inj in Hbody. by subst.
    + by destruct (underscore_split _ _ _ _ H1 H2 Hbody) as [-> ->].
Qed.

Lemma projection_order_and_alias_witness :
  SelectQuery.table fixtures.select_users = Some fixtures.users
  ∧ (md_column.alias_name fixtures.users_id None true
     = md_column.alias_name fixtures.users_name None true
     ↔ fixtures.users_id = fixtures.users_name).
Proof.
  split; [reflexivity|].
  apply (projection_order_and_alias (H := fixtures.sorter_sql)
           fixtures.select_users fixtures.users fixtures.users_id fixtures.users_name true).
  - reflexivity.
  - left. reflexivity.
Defined.

(** ** Clauses of the compiled SELECT *)

Lemma compile_condition_fragments (emit_param : string → string)
    (conditions : list BaseOperator) (params : SelectQuery.params_t)
    (c_sql : list string) (counter : count) :
  (foldl (SelectQuery.compile_condition emit_param) (params, c_sql, counter) conditions).1.2
  = c_sql ++ spec.fragments emit_param conditions counter.
Proof.
  revert params c_sql counter.
  induction conditions as [|c conditions IH]; intros params c_sql counter; simpl.
  - by rewrite app_nil_r.
  - destruct (generate_sql c emit_param counter) as [[[sql name] val] counter'] eqn:Hc.
    rewrite IH. by rewrite <- app_assoc.
Qed.

Lemma fragments_length (emit_param : string → string) (conditions : list BaseOperator)
    (counter : count) :
  length (spec.fragments emit_param conditions counter) = length conditions.
Proof.
  revert counter. induction conditions as [|c conditions IH]; intros counter; simpl; [done|].
  destruct (generate_sql c emit_param counter) as [[[sql name] val] counter'].
  simpl. by rewrite IH.
Qed.

(** C5. The compiled text is the SELECT clause, then [WHERE] with the
    fragments of the conditions joined by [AND] exactly when there is a
    condition, then [LIMIT] exactly when a limit is set, then [OFFSET]
    exactly when an offset is set, then [ORDER BY] exactly when an orderer
    is set; a limit or offset of 0 is rendered as [LIMIT 0] / [OFFSET 0]. *)
Theorem generate_sql_clauses `{SorterSql} (q : SelectQuery.t) (tbl : Table) :
  SelectQuery.table q = Some tbl →
  ∃ params fragment,
    let c_sql := spec.fragments (bind_emit_param (SelectQuery.session q))
                                (SelectQuery.conditions q) 0 in
    SelectQuery.generate_sql q
    = Ok (spec.select_clause tbl
            +:+ spec.where_clause c_sql
            +:+ spec.limit_clause (SelectQuery.row_limit q)
            +:+ spec.offset_clause (SelectQuery.row_offset q)
            +:+ spec.order_clause fragment, params)
    ∧ (spec.where_clause c_sql = "" ↔ SelectQuery.conditions q = [])
    ∧ (spec.where_clause c_sql = "" ∨ spec.where_clause c_sql = " WHERE " +:+ join " AND " c_sql)
    ∧ (spec.limit_clause (SelectQuery.row_limit q) = "" ↔ SelectQuery.row_limit q = None)
    ∧ (spec.offset_clause (SelectQuery.row_offset q) = "" ↔ SelectQuery.row_offset q = None)
    ∧ (spec.order_clause fragment = "" ↔ SelectQuery.orderer q = None)
    ∧ spec.limit_clause (SelectQuery.row_limit (SelectQuery.limit q 0)) = " LIMIT 0"
    ∧ spec.offset_clause (SelectQuery.row_offset (SelectQuery.offset q 0)) = " OFFSET 0".
Proof.
  intros Htbl. rewrite (generate_sql_shape q tbl Htbl).
  pose proof (compile_condition_fragments (bind_emit_param (SelectQuery.session q))
                (SelectQuery.conditions q) ∅ [] 0) as Hfrag.
  destruct (foldl _ _ (SelectQuery.conditions q)) as [[params c_sql] counter].
  simpl in Hfrag. subst c_sql.
  eexists params, _. split; [reflexivity|].
  pose proof (fragments_length (bind_emit_param (SelectQuery.session q))
                (SelectQuery.conditions q) 0) as Hlen.
  assert (Hne : ∀ (a : Ascii.ascii) (s t : string), String a s +:+ t = "" ↔ False).
  { intros a s t. by rewrite append_cons. }
  repeat split.
  - destruct (spec.fragments _ _ _); [|by intros ?%Hne].
    intros _. by destruct (SelectQuery.conditions q).
  - intros Hnil. by rewrite Hnil.
  - destruct (spec.fragments _ _ _); [by left|by right].
  - destruct (SelectQuery.row_limit q); [by intros ?%Hne|done].
  - by intros ->.
  - destruct (SelectQuery.row_offset q); [by intros ?%Hne|done].
  - by intros ->.
  - destruct (SelectQuery.orderer q); [by intros ?%Hne|done].
  - by intros ->.
Qed.

Lemma generate_sql_clauses_witness :
  ∃ params,
    SelectQuery.generate_sql (H := fixtures.sorter_sql)
      (SelectQuery.offset (SelectQuery.limit fixtures.select_users 0) 0)
    = Ok (spec.select_clause fixtures.users +:+ "" +:+ " LIMIT 0" +:+ " OFFSET 0" +:+ "",
          params).
Proof.
  destruct (generate_sql_clauses (H := fixtures.sorter_sql)
              (SelectQuery.offset (SelectQuery.limit fixtures.select_users 0) 0)
              fixtures.users eq_refl)
    as (params & fragment & Hsql & _ & _ & _ & _ & Hord & _).
  rewrite (proj2 Hord eq_refl) in Hsql.
  exists params. exact Hsql.
Defined.

(** ** Determinism of compilation *)

(** A loop whose body only reads the object leaves it as it was. *)
Lemma for_each_reads {A B} (body : B → A → SelectQuery.Method B)
    (f : SelectQuery.t → B → A → B) (acc : B) (l : list A) (self : SelectQuery.t) :
  (∀ acc x, body acc x self = (Ok (f self acc x), self)) →
  SelectQuery.for_each body acc l self = (Ok (foldl (f self) acc l), self).
Proof.
  intros Hbody. revert acc. induction l as [|x l IH]; intros acc; [done|].
  cbn [SelectQuery.for_each foldl]. unfold mbind, SelectQuery.Method_bind.
  rewrite Hbody. apply IH.
Qed.

Lemma call_get_required_join_paths_reads (self : SelectQuery.t) :
  SelectQuery.call_get_required_join_paths self
  = (SelectQuery.get_required_join_paths self, self).
Proof.
  unfold SelectQuery.call_get_required_join_paths, SelectQuery.get_required_join_paths,
    SelectQuery.table_attr, SelectQuery.getattr, SelectQuery.raise.
  unfold mbind, SelectQuery.Method_bind.
  destruct (SelectQuery.table self) as [tbl|]; [|done].
  cbn [mret SelectQuery.Method_ret].
  by rewrite (for_each_reads _ (λ _, SelectQuery.add_join_path)).
Qed.

Lemma call_generate_sql_reads `{SorterSql} (self : SelectQuery.t) :
  SelectQuery.call_generate_sql self = (SelectQuery.generate_sql self, self).
Proof.
  destruct self as [sess [tbl|] conds lim off ord]; [|done].
  cbv [SelectQuery.call_generate_sql SelectQuery.generate_sql
       SelectQuery.call_get_required_join_paths SelectQuery.get_required_join_paths
       SelectQuery.table_attr SelectQuery.getattr SelectQuery.raise
       mbind SelectQuery.Method_bind Result_bind bind mret SelectQuery.Method_ret Result_ret
       SelectQuery.table SelectQuery.conditions SelectQuery.session SelectQuery.row_limit
       SelectQuery.row_offset SelectQuery.orderer SelectQuery.projected_columns].
  rewrite (for_each_reads _ (λ _, SelectQuery.add_join_path)) by done.
  destruct (foldl SelectQuery.add_join_path ([], []) (iter_relationships tbl))
    as [foreign_tables joins].
  rewrite (for_each_reads _
             (λ self, SelectQuery.compile_condition (bind_emit_param (SelectQuery.session self))))
    by done.
  cbv [SelectQuery.session].
  destruct (foldl _ _ conds) as [[params c_sql] counter].
  by destruct ord.
Qed.

(** C4. Two calls of [generate_sql] in a row, with no builder method in
    between, return the same SQL text and the same parameter map (or raise
    the same exception): the body reads the attributes of the builder and
    assigns none, and its counter, parameter map and fragment list are
    created by each call, so the builder is in the same state after each
    call and the second call starts from what the first one started
    from. *)
Theorem generate_sql_twice `{SorterSql} (q : SelectQuery.t) :
  let '(first, q1) := SelectQuery.call_generate_sql q in
  let '(second, q2) := SelectQuery.call_generate_sql q1 in
  first = second ∧ q1 = q ∧ q2 = q ∧ first = SelectQuery.generate_sql q.
Proof.
  rewrite call_generate_sql_reads. rewrite call_generate_sql_reads.
  repeat split.
Qed.

(** ** Errors of [order_by] *)

(** C6, as stated, fails: with a single sorter as its only argument,
    [order_by] installs the sorter and never looks at the direction. *)
Lemma order_by_accepts_unknown_direction : ¬ spec.order_by_rejects fixtures.select_users.
Proof.
  intros [_ Hdir].
  destruct (Hdir [ItemSorter (md_column.asc fixtures.users_id)] "sideways") as [e He];
    [done..|].
  discriminate He.
Qed.

(** C6, amended. [order_by] with no positional argument raises a
    [TypeError] whatever the direction; with a direction other than [asc]
    and [desc] it raises a [TypeError] when it is given a column first or
    more than one item, and when it is given exactly one sorter it installs
    that sorter and ignores the direction.  The errors are results of
    [order_by] itself: nothing has been compiled or fetched. *)
Theorem order_by_errors (self : SelectQuery.t) (sort_order : string) (s : Sorter)
    (c : Column) (item1 item2 : SortItem) (rest : list SortItem) :
  sort_order ≠ "asc" → sort_order ≠ "desc" →
  (∀ any_order,
     SelectQuery.order_by self [] any_order
     = Raise (mkException TypeError "Must provide at least one item to order with" None))
  ∧ SelectQuery.order_by self (ItemColumn c :: rest) sort_order
    = Raise (mkException TypeError ("Unknown sort order " +:+ sort_order) None)
  ∧ SelectQuery.order_by self (item1 :: item2 :: rest) sort_order
    = Raise (mkException TypeError ("Unknown sort order " +:+ sort_order) None)
  ∧ SelectQuery.order_by self [ItemSorter s] sort_order = Ok (SelectQuery.set_orderer self s).
Proof.
  intros Hasc Hdesc. unfold SelectQuery.order_by.
  split; [done|]. split; [|split; [|done]].
  - rewrite decide_False, decide_False by done. done.
  - destruct item1; rewrite decide_False, decide_False by done; done.
Qed.

Lemma order_by_errors_witness :
  SelectQuery.order_by fixtures.select_users
    [ItemColumn fixtures.users_id; ItemColumn fixtures.users_name] "sideways"
  = Raise (mkException TypeError "Unknown sort order sideways" None).
Proof.
  apply (order_by_errors fixtures.select_users "sideways"
           (md_column.asc fixtures.users_id) fixtures.users_id
           (ItemColumn fixtures.users_id) (ItemColumn fixtures.users_name) []);
    done.
Defined.

(** ** Mapping errors *)



(** ** Return values of [add_row] *)

(** C10. [InsertQuery.add_row] and [RowUpdateQuery.add_row] append the row
    and return the query, so a call chained on the result runs;
    [RowDeleteQuery.add_row] appends the row and returns [None], so a call
    chained on the result fails although the row was recorded. *)
Theorem add_row_return_values (qi : InsertQuery.t) (qu : RowUpdateQuery.t)
    (qd : RowDeleteQuery.t) (row row' : TableRow) :
  InsertQuery.add_row qi row
  = (ReturnsSelf, InsertQuery.mk (InsertQuery.session qi)
                                 (InsertQuery.rows_to_insert qi ++ [row]))
  ∧ RowUpdateQuery.add_row qu row
    = (ReturnsSelf, RowUpdateQuery.mk (RowUpdateQuery.session qu)
                                      (RowUpdateQuery.rows_to_update qu ++ [row]))
  ∧ is_ok (chained (InsertQuery.add_row qi row) "add_row"
                   (λ q, InsertQuery.add_row q row')) = true
  ∧ is_ok (chained (RowUpdateQuery.add_row qu row) "add_row"
                   (λ q, RowUpdateQuery.add_row q row')) = true
  ∧ fst (RowDeleteQuery.add_row qd row) = ReturnsNone
  ∧ RowDeleteQuery.rows_to_delete (snd (RowDeleteQuery.add_row qd row))
    = RowDeleteQuery.rows_to_delete qd ++ [row]
  ∧ chained (RowDeleteQuery.add_row qd row) "add_row"
            (λ q, RowDeleteQuery.add_row q row')
    = Raise (mkException AttributeError
               "'NoneType' object has no attribute 'add_row'" None).
Proof.
  unfold InsertQuery.add_row, RowUpdateQuery.add_row, RowDeleteQuery.add_row, chained.
  simpl. repeat split.
Qed.

(** ** Placeholders and bound values *)

Lemma param_name_inj : Inj (=) (=) predicate.param_name.
Proof.
  intros n m Heq. unfold predicate.param_name in Heq.
  apply String.app_inj in Heq. by apply (inj pretty) in Heq.
Qed.

Section placeholders.
Context (naming : nat → string) `{!Inj (=) (=) naming}.
Context (emit_param : string → string).

(** The parameter map binds exactly the names of the list. *)
Local Abbreviation binds := (λ (params : SelectQuery.params_t) (names : list string),
  ∀ k, is_Some (params !! k) ↔ ∃ s, k = Some s ∧ s ∈ names).

Local Abbreviation below := (λ (n : nat) (names : list string),
  ∀ s, s ∈ names → ∃ i, i < n ∧ s = naming i).





End placeholders.




(** ** Row queries *)

Lemma run_uses_emitted (m : Emitting (string * dict pyval)) (got : list string) (n : count) :
  spec.uses_emitted m got →
  n ≤ (run m n).2
  ∧ ∀ k, is_Some ((run m n).1.2 !! k) →
         k ∈ got ∨ ∃ j, n ≤ j < (run m n).2 ∧ k = predicate.param_name j.
Proof.
  revert got n. induction m as [[sql params]|k IH]; intros got n Huses; simpl in *.
  - split; [done|]. intros k Hk. left. by apply Huses.
  - destruct (IH (predicate.param_name n) (predicate.param_name n :: got) (S n) (Huses _))
      as [Hle Hkeys].
    change ("param_" +:+ pretty n) with (predicate.param_name n).
    split; [lia|]. intros key Hkey.
    destruct (Hkeys key Hkey) as [[->|Hin]%elem_of_cons|(j & Hj & ->)].
    + right. exists n. split; [lia|done].
    + by left.
    + right. exists j. split; [lia|done].
Qed.

Lemma compile_rows (method : TableRow → Emitting (string * dict pyval))
    (rows : list TableRow) (queries : list (string * dict pyval)) (counter : count) :
  (∀ row, row ∈ rows → spec.uses_emitted (method row) []) →
  ∃ new counter',
    foldl (compile_row method) (queries, counter) rows = (queries ++ new, counter')
    ∧ counter ≤ counter'
    ∧ (∀ i p k, new !! i = Some p → is_Some (p.2 !! k) →
                ∃ j, counter ≤ j < counter' ∧ k = predicate.param_name j)
    ∧ spec.compiled_per_row new rows method.
Proof.
  revert queries counter.
  induction rows as [|row rows IH]; intros queries counter Hrows.
  - exists [], counter. simpl. rewrite app_nil_r.
    split; [done|]. split; [done|]. split; [done|].
    split; [done|]. split; [done|]. by intros [|i] j pi pj.
  - cbn [foldl]. unfold compile_row at 2.
    destruct (run_uses_emitted (method row) [] counter) as [Hle Hkeys].
    { apply Hrows. left. }
    destruct (run (method row) counter) as [p c1] eqn:Hrun. simpl in Hle, Hkeys.
    destruct (IH (queries ++ [p]) c1) as (new & counter' & Hfold & Hle' & Hnew & Hper).
    { intros r Hr. apply Hrows. by right. }
    destruct Hper as (Hlen & Hnth & Hdisj).
    exists (p :: new), counter'. rewrite Hfold, <- app_assoc.
    split; [done|]. split; [lia|].
    assert (Hp : ∀ k, is_Some (p.2 !! k) →
                      ∃ j, counter ≤ j < c1 ∧ k = predicate.param_name j).
    { intros k Hk. destruct (Hkeys k Hk) as [Hin|?]; [|done]. by apply elem_of_nil in Hin. }
    split; [|split; [|split]].
    + intros [|i] q k Hq Hk; simpl in Hq.
      * injection Hq as <-. destruct (Hp k Hk) as (j & Hj & ->). exists j. split; [lia|done].
      * destruct (Hnew i q k Hq Hk) as (j & Hj & ->). exists j. split; [lia|done].
    + simpl. by rewrite Hlen.
    + intros [|i] r Hr; simpl in Hr.
      * injection Hr as <-. exists counter. by rewrite Hrun.
      * by apply Hnth.
    + assert (Hhead : ∀ j q k, new !! j = Some q →
                ¬ (is_Some (p.2 !! k) ∧ is_Some (q.2 !! k))).
      { intros j q k Hq [Hk1 Hk2].
        destruct (Hp k Hk1) as (j1 & Hj1 & ->).
        destruct (Hnew j q _ Hq Hk2) as (j2 & Hj2 & Heq).
        apply param_name_inj in Heq. lia. }
      intros [|i] [|j] pi pj Hij Hpi Hpj k; simpl in Hpi, Hpj.
      * done.
      * injection Hpi as <-. by eapply Hhead.
      * injection Hpj as <-. intros [? ?]. by eapply (Hhead i pi k).
      * eapply Hdisj; [|done..]. congruence.
Qed.

(** C9. When every held row builds its parameters from the placeholders
    it obtained from [emit], [generate_sql] of an insert, row update or row
    delete query holding N rows returns exactly N pairs, the i-th being
    what the i-th row's method produced, and no placeholder name is bound
    in two different pairs: the counter is shared by the whole loop. *)
Theorem row_queries_generate_sql `{RowSql} (qi : InsertQuery.t) (qu : RowUpdateQuery.t)
    (qd : RowDeleteQuery.t) :
  (∀ row, row ∈ InsertQuery.rows_to_insert qi →
          spec.uses_emitted (_get_insert_sql row (InsertQuery.session qi)) []) →
  (∀ row, row ∈ RowUpdateQuery.rows_to_update qu →
          spec.uses_emitted (_get_update_sql row (RowUpdateQuery.session qu)) []) →
  (∀ row, row ∈ RowDeleteQuery.rows_to_delete qd →
          spec.uses_emitted (_get_delete_sql row (RowDeleteQuery.session qd)) []) →
  spec.compiled_per_row (InsertQuery.generate_sql qi) (InsertQuery.rows_to_insert qi)
                        (λ row, _get_insert_sql row (InsertQuery.session qi))
  ∧ spec.compiled_per_row (RowUpdateQuery.generate_sql qu) (RowUpdateQuery.rows_to_update qu)
                          (λ row, _get_update_sql row (RowUpdateQuery.session qu))
  ∧ spec.compiled_per_row (RowDeleteQuery.generate_sql qd) (RowDeleteQuery.rows_to_delete qd)
                          (λ row, _get_delete_sql row (RowDeleteQuery.session qd)).
Proof.
  intros Hi Hu Hd.
  unfold InsertQuery.generate_sql, RowUpdateQuery.generate_sql, RowDeleteQuery.generate_sql.
  split; [|split].
  - destruct (compile_rows _ _ [] 0 Hi) as (new & c & -> & _ & _ & Hper). exact Hper.
  - destruct (compile_rows _ _ [] 0 Hu) as (new & c & -> & _ & _ & Hper). exact Hper.
  - destruct (compile_rows _ _ [] 0 Hd) as (new & c & -> & _ & _ & Hper). exact Hper.
Qed.

Lemma bind_id_uses_emitted (verb : string) (row : TableRow) (sess : Session) :
  spec.uses_emitted (fixtures.bind_id verb row sess) [].
Proof.
  intros name k [v Hk]. apply lookup_singleton_Some in Hk as [<- _]. left.
Defined.

Lemma row_queries_generate_sql_witness :
  spec.compiled_per_row
    (InsertQuery.generate_sql (H := fixtures.row_sql) fixtures.insert_two)
    (InsertQuery.rows_to_insert fixtures.insert_two)
    (λ row, fixtures.bind_id "INSERT INTO" row fixtures.sess)
  ∧ length (RowDeleteQuery.generate_sql (H := fixtures.row_sql) fixtures.delete_two) = 2.
Proof.
  destruct (row_queries_generate_sql (H := fixtures.row_sql)
              fixtures.insert_two fixtures.update_two fixtures.delete_two)
    as (Hinsert & _ & Hdelete).
  - intros row _. apply bind_id_uses_emitted.
  - intros row _. apply bind_id_uses_emitted.
  - intros row _. apply bind_id_uses_emitted.
  - split; [exact Hinsert|]. destruct Hdelete as [Hlen _]. exact Hlen.
Defined.

(** ** Primary-key run grouping *)

Section runs.
Context {A K : Type} `{EqDecision K} (key : A → K).

Lemma run_on_after_run (k : K) (rows : list A) :
  spec.run_on key k rows ++ spec.after_run key k rows = rows.
Proof.
  induction rows as [|r rows IH]; simpl; [done|].
  destruct (decide (key r = k)); simpl; [by rewrite IH|done].
Qed.

Lemma run_on_key (k : K) (rows : list A) (r : A) :
  r ∈ spec.run_on key k rows → key r = k.
Proof.
  induction rows as [|r' rows IH]; simpl; [by intros ?%elem_of_nil|].
  destruct (decide (key r' = k)); [|by intros ?%elem_of_nil].
  intros [->|Hin]%elem_of_cons; [done|by apply IH].
Qed.

Lemma after_run_head (k : K) (rows : list A) (r : A) :
  head (spec.after_run key k rows) = Some r → key r ≠ k.
Proof.
  induction rows as [|r' rows IH]; simpl; [done|].
  destruct (decide (key r' = k)); [done|]. simpl. by intros [= <-].
Qed.

Lemma after_run_length (k : K) (rows : list A) :
  length (spec.after_run key k rows) ≤ length rows.
Proof.
  induction rows as [|r rows IH]; simpl; [done|].
  destruct (decide (key r = k)); simpl; lia.
Qed.

(** The first run is the first row with its run-on rows; the other runs
    are the runs of what follows. *)
Lemma runs_cons (r : A) (rows : list A) :
  spec.runs key (r :: rows)
  = (r :: spec.run_on key (key r) rows) :: spec.runs key (spec.after_run key (key r) rows).
Proof.
  revert r. induction rows as [|r' rows IH]; intros r; [done|].
  change (spec.runs key (r :: r' :: rows))
    with (match spec.runs key (r' :: rows) with
          | (r'' :: g) :: gs =>
              if decide (key r = key r'') then (r :: r'' :: g) :: gs
              else [r] :: (r'' :: g) :: gs
          | _ => [[r]]
          end).
  rewrite IH. simpl.
  destruct (decide (key r = key r')) as [Heq|Hne].
  - rewrite !decide_True by done. by rewrite Heq.
  - rewrite !decide_False by done. by rewrite IH.
Qed.

Lemma runs_concat (rows : list A) : List.concat (spec.runs key rows) = rows.
Proof.
  remember (length rows) as n eqn:Hn. revert rows Hn.
  induction n as [n IH] using lt_wf_ind. intros [|r rows] Hn; [done|].
  rewrite runs_cons. simpl. rewrite (IH (length (spec.after_run key (key r) rows))).
  - by rewrite run_on_after_run.
  - pose proof (after_run_length (key r) rows). simpl in Hn. lia.
  - done.
Qed.

Lemma runs_same_key (rows : list A) :
  Forall (λ g, g ≠ [] ∧ ∀ r1 r2, r1 ∈ g → r2 ∈ g → key r1 = key r2) (spec.runs key rows).
Proof.
  remember (length rows) as n eqn:Hn. revert rows Hn.
  induction n as [n IH] using lt_wf_ind. intros [|r rows] Hn; [by constructor|].
  rewrite runs_cons. constructor.
  - split; [done|].
    assert (∀ x, x ∈ r :: spec.run_on key (key r) rows → key x = key r) as Hk.
    { intros x [->|Hin]%elem_of_cons; [done|by eapply run_on_key]. }
    intros r1 r2 H1 H2. by rewrite (Hk r1), (Hk r2).
  - eapply IH; [|done].
    pose proof (after_run_length (key r) rows). simpl in Hn. lia.
Qed.

(** Runs are maximal: the rows of two consecutive runs have different
    keys. *)
Lemma runs_maximal (rows : list A) (i : nat) (g1 g2 : list A) (r1 r2 : A) :
  spec.runs key rows !! i = Some g1 → spec.runs key rows !! S i = Some g2 →
  r1 ∈ g1 → r2 ∈ g2 → key r1 ≠ key r2.
Proof.
  remember (length rows) as n eqn:Hn. revert rows i Hn.
  induction n as [n IH] using lt_wf_ind. intros [|r rows] i Hn; [done|].
  rewrite runs_cons. destruct i as [|i]; simpl.
  - intros [= <-] Hg2 Hr1 Hr2.
    assert (key r1 = key r) as ->.
    { apply elem_of_cons in Hr1 as [->|Hin]; [done|by eapply run_on_key]. }
    destruct (spec.after_run key (key r) rows) as [|r' rest] eqn:Hafter; [done|].
    rewrite runs_cons in Hg2. injection Hg2 as <-.
    assert (key r2 = key r') as ->.
    { apply elem_of_cons in Hr2 as [->|Hin]; [done|by eapply run_on_key]. }
    intros Heq. eapply (after_run_head (key r) rows r'); [by rewrite Hafter|done].
  - eapply IH; [|done].
    pose proof (after_run_length (key r) rows). simpl in Hn. lia.
Qed.

End runs.

Section grouping.
Context (run_select_query : SelectQuery.t → _ResultGenerator.BaseResultSet).
Context (q : SelectQuery.t) (key : dict pyval → list pyval).

Local Abbreviation anext := (_ResultGenerator.__anext__ run_select_query).
Local Abbreviation gen := _ResultGenerator.mk.

Lemma flatten_loop_step (self : _ResultGenerator.t) (l : list TableRow) :
  _ResultGenerator.flatten_loop run_select_query self l
  = match anext self with
    | (Ok result, self') =>
        _ResultGenerator.flatten_loop run_select_query self' (l ++ [result])
    | (Raise e, self') =>
        if decide (exc_class e = StopAsyncIteration) then (Ok l, self')
        else (Raise e, self')
    end.
Proof.
  rewrite _ResultGenerator.flatten_loop_equation_1.
  destruct (Logic.inspect (anext self)) as [[[result|e] self'] Heq].
  - rewrite _ResultGenerator.flatten_loop_clause_1_equation_1. by rewrite Heq.
  - rewrite _ResultGenerator.flatten_loop_clause_1_equation_2. by rewrite Heq.
Qed.

Lemma fill_loop_run (rs dq : list (dict pyval)) (k : list pyval) (n : nat) :
  (∀ row, row ∈ rs → _ResultGenerator.pkey_of q row = Ok (key row)) →
  _ResultGenerator.fill_loop q rs dq (Some k) n
  = (Ok (n + length (spec.run_on key k rs)),
     (drop 1 (spec.after_run key k rs),
      dq ++ spec.run_on key k rs ++ take 1 (spec.after_run key k rs))).
Proof.
  revert dq n. induction rs as [|row rs IH]; intros dq n Hkeys; simpl.
  - by rewrite Nat.add_0_r, app_nil_r.
  - rewrite (Hkeys row) by left.
    destruct (decide (key row = k)) as [Heq|Hne].
    + rewrite IH by (intros r Hr; apply Hkeys; by right).
      simpl. rewrite <- app_assoc. simpl. do 2 f_equal. lia.
    + simpl. by rewrite Nat.add_0_r, drop_0.
Qed.

Lemma popleft_n_app (rows deque : list (dict pyval)) :
  _ResultGenerator.popleft_n (length rows) (rows ++ deque) = (Ok rows, deque).
Proof.
  induction rows as [|row rows IH]; simpl; [done|]. by rewrite IH.
Qed.

(** Nothing buffered, nothing left in the cursor: the stream has ended. *)
Lemma anext_end :
  anext (gen q (Some []) [])
  = (Raise (mkException StopAsyncIteration "" None), gen q (Some []) []).
Proof. reflexivity. Qed.

(** One call of [__anext__] with pending rows [r :: rest] (the buffered row,
    if any, then the cursor): it maps [r] with its run-on rows, and the
    first row after them, if any, is the only row left in the buffer. *)
Lemma anext_run (dq rs : list (dict pyval)) (r : dict pyval) (rest : list (dict pyval)) :
  length dq ≤ 1 → dq ++ rs = r :: rest →
  (∀ row, row ∈ r :: rest → _ResultGenerator.pkey_of q row = Ok (key row)) →
  anext (gen q (Some rs) dq)
  = (_ResultGenerator.map_rows q (r :: spec.run_on key (key r) rest),
     gen q (Some (drop 1 (spec.after_run key (key r) rest)))
           (take 1 (spec.after_run key (key r) rest))).
Proof.
  intros Hdq Happ Hkeys.
  assert (Hfill : _ResultGenerator._fill (gen q (Some rs) dq)
                  = (Ok (S (length (spec.run_on key (key r) rest))),
                     gen q (Some (drop 1 (spec.after_run key (key r) rest)))
                           ((r :: spec.run_on key (key r) rest)
                              ++ take 1 (spec.after_run key (key r) rest)))).
  { unfold _ResultGenerator._fill. simpl.
    destruct dq as [|first [|]]; simpl in *; [| |lia].
    - subst rs. simpl. rewrite (Hkeys r) by left.
      rewrite fill_loop_run by (intros row Hrow; apply Hkeys; by right). done.
    - injection Happ as -> ->. rewrite (Hkeys r) by left. simpl.
      rewrite fill_loop_run by (intros row Hrow; apply Hkeys; by right). done. }
  unfold _ResultGenerator.__anext__.
  change (_ResultGenerator.ensure_results run_select_query (gen q (Some rs) dq))
    with (gen q (Some rs) dq).
  rewrite Hfill. cbn [_ResultGenerator._result_deque _ResultGenerator.query
                        _ResultGenerator._results].
  change (S (length (spec.run_on key (key r) rest)))
    with (length (r :: spec.run_on key (key r) rest)).
  rewrite popleft_n_app. done.
Qed.

Local Abbreviation keyed := (Forall (λ row, _ResultGenerator.pkey_of q row = Ok (key row))).

(** One call on a generator whose pending rows split into the runs
    [g :: gs]: [g] is mapped, and of the rows of [gs] only the first is
    buffered. *)
Lemma anext_group (dq rs : list (dict pyval)) (g : list (dict pyval))
    (gs : list (list (dict pyval))) :
  length dq ≤ 1 → keyed (dq ++ rs) → spec.runs key (dq ++ rs) = g :: gs →
  anext (gen q (Some rs) dq)
  = (_ResultGenerator.map_rows q g,
     gen q (Some (drop 1 (List.concat gs))) (take 1 (List.concat gs)))
  ∧ spec.runs key (List.concat gs) = gs.
Proof.
  intros Hdq Hkeys Hruns.
  destruct (dq ++ rs) as [|r rest] eqn:Happ; [done|].
  rewrite runs_cons in Hruns. injection Hruns as <- <-.
  rewrite runs_concat. split; [|done].
  apply anext_run; [done..|]. by apply Forall_forall.
Qed.

Lemma flatten_groups (groups : list (list (dict pyval))) (dq rs : list (dict pyval))
    (acc : list TableRow) :
  length dq ≤ 1 → keyed (dq ++ rs) → spec.runs key (dq ++ rs) = groups →
  (∀ g e, g ∈ groups → _ResultGenerator.map_rows q g = Raise e →
          exc_class e ≠ StopAsyncIteration) →
  (_ResultGenerator.flatten_loop run_select_query (gen q (Some rs) dq) acc).1
  = (objs ← traverse (_ResultGenerator.map_rows q) groups; Ok (acc ++ objs)).
Proof.
  revert dq rs acc.
  induction groups as [|g gs IH]; intros dq rs acc Hdq Hkeys Hruns Hstop.
  - pose proof (runs_concat key (dq ++ rs)) as Hnil. rewrite Hruns in Hnil.
    symmetry in Hnil. apply app_eq_nil in Hnil as [-> ->].
    rewrite flatten_loop_step, anext_end. simpl. by rewrite app_nil_r.
  - destruct (anext_group dq rs g gs Hdq Hkeys Hruns) as [Hnext Hgs].
    rewrite flatten_loop_step, Hnext. cbn [traverse].
    destruct (_ResultGenerator.map_rows q g) as [obj|e] eqn:Hmap.
    + rewrite IH.
      * simpl. destruct (traverse _ gs) as [objs|e]; simpl; [|done].
        by rewrite <- app_assoc.
      * rewrite length_take. lia.
      * rewrite take_drop.
        pose proof (runs_concat key (dq ++ rs)) as Hcat. rewrite Hruns in Hcat.
        rewrite <- Hcat in Hkeys. simpl in Hkeys. by apply Forall_app in Hkeys as [_ ?].
      * by rewrite take_drop.
      * intros g' e Hin. apply Hstop. by right.
    + rewrite decide_False; [done|]. eapply Hstop; [left|done].
Qed.

Lemma runs_drop (i : nat) (rows : list (dict pyval)) :
  spec.runs key (List.concat (drop i (spec.runs key rows))) = drop i (spec.runs key rows).
Proof.
  revert rows. induction i as [|i IH]; intros rows.
  - by rewrite drop_0, runs_concat.
  - destruct rows as [|r rest]; [done|].
    rewrite runs_cons. simpl. apply IH.
Qed.

(** The state of the stream before its [i]-th result ([i] counted from 0):
    that call maps the [i]-th run, and leaves in the buffer the first row
    of the runs after it, if there is one. *)
Lemma anext_advance (i : nat) (g : list (dict pyval)) :
  keyed (run_select_query q) →
  spec.runs key (run_select_query q) !! i = Some g →
  anext (spec.advance run_select_query i (_ResultGenerator.__init__ q))
  = (_ResultGenerator.map_rows q g,
     gen q (Some (drop 1 (List.concat (drop (S i) (spec.runs key (run_select_query q))))))
           (take 1 (List.concat (drop (S i) (spec.runs key (run_select_query q)))))).
Proof.
  intros Hkeys. revert g.
  induction i as [|i IH]; intros g Hg.
  - change (anext (spec.advance run_select_query 0 (_ResultGenerator.__init__ q)))
      with (anext (gen q (Some (run_select_query q)) [])).
    destruct (spec.runs key (run_select_query q)) as [|g' gs] eqn:Hruns; [done|].
    injection Hg as ->.
    destruct (anext_group [] (run_select_query q) g gs) as [Hnext _]; [simpl; lia|done..|].
    exact Hnext.
  - destruct (lookup_lt_is_Some_2 (spec.runs key (run_select_query q)) i) as [g' Hg'].
    { apply lookup_lt_Some in Hg. lia. }
    cbn [spec.advance]. rewrite (IH g' Hg'). cbn [snd].
    set (R := List.concat (drop (S i) (spec.runs key (run_select_query q)))).
    assert (Hruns : spec.runs key (take 1 R ++ drop 1 R)
                    = g :: drop (S (S i)) (spec.runs key (run_select_query q))).
    { rewrite take_drop. unfold R. rewrite runs_drop. by apply drop_S. }
    destruct (anext_group (take 1 R) (drop 1 R) g
                (drop (S (S i)) (spec.runs key (run_select_query q)))) as [Hnext _];
      [| |exact Hruns|exact Hnext].
    + rewrite length_take. lia.
    + rewrite take_drop. unfold R.
      rewrite <- (runs_concat key (run_select_query q)) in Hkeys.
      rewrite <- (take_drop (S i) (spec.runs key (run_select_query q))) in Hkeys.
      rewrite concat_app in Hkeys. by apply Forall_app in Hkeys as [_ ?].
Qed.

End grouping.

(** C1. With every row of the cursor carrying the primary key columns, the
    result stream yields one mapped object per maximal run of consecutive
    rows with the same primary key, in cursor order: the runs concatenate
    to the cursor's rows, the rows of a run share their key, rows of
    consecutive runs differ in it, and [flatten] returns the runs mapped
    one by one.  At the [i]-th call the [i]-th run is mapped, and the first
    row whose key differs is not part of it: it is the one row left in the
    buffer, the rows after it are still in the cursor. *)
Theorem result_stream_groups_runs
    (run_select_query : SelectQuery.t → _ResultGenerator.BaseResultSet)
    (q : SelectQuery.t) (key : dict pyval → list pyval) :
  let rows := run_select_query q in
  let groups := spec.runs key rows in
  let stream := _ResultGenerator.__init__ q in
  (∀ row, row ∈ rows → _ResultGenerator.pkey_of q row = Ok (key row)) →
  (∀ g e, g ∈ groups → _ResultGenerator.map_rows q g = Raise e →
          exc_class e ≠ StopAsyncIteration) →
  (_ResultGenerator.flatten run_select_query stream).1
  = traverse (_ResultGenerator.map_rows q) groups
  ∧ List.concat groups = rows
  ∧ Forall (λ g, g ≠ [] ∧ ∀ r1 r2, r1 ∈ g → r2 ∈ g → key r1 = key r2) groups
  ∧ (∀ i g1 g2 r1 r2,
       groups !! i = Some g1 → groups !! S i = Some g2 → r1 ∈ g1 → r2 ∈ g2 →
       key r1 ≠ key r2)
  ∧ (∀ i g,
       groups !! i = Some g →
       let '(result, after) :=
         _ResultGenerator.__anext__ run_select_query
           (spec.advance run_select_query i stream) in
       result = _ResultGenerator.map_rows q g
       ∧ _ResultGenerator._result_deque after = take 1 (List.concat (drop (S i) groups))
       ∧ _ResultGenerator._results after = Some (drop 1 (List.concat (drop (S i) groups)))).
Proof.
  intros rows groups stream Hkeys Hstop.
  apply Forall_forall in Hkeys.
  split; [|split; [|split; [|split]]].
  - unfold _ResultGenerator.flatten.
    assert (_ResultGenerator.flatten_loop run_select_query stream []
            = _ResultGenerator.flatten_loop run_select_query
                (_ResultGenerator.mk q (Some rows) []) []) as ->.
    { rewrite (flatten_loop_step _ stream), (flatten_loop_step _ (_ResultGenerator.mk _ _ _)).
      reflexivity. }
    rewrite (flatten_groups run_select_query q key groups [] rows []);
      [|simpl; lia|exact Hkeys|reflexivity|exact Hstop].
    by destruct (traverse _ groups).
  - apply runs_concat.
  - apply runs_same_key.
  - intros i g1 g2 r1 r2. apply runs_maximal.
  - intros i g Hg. subst rows groups stream.
    rewrite (anext_advance run_select_query q key i g Hkeys Hg). done.
Qed.

Lemma result_stream_groups_runs_witness :
  (_ResultGenerator.flatten (λ _, fixtures.scenario)
     (_ResultGenerator.__init__ fixtures.select_parents)).1
  = traverse (_ResultGenerator.map_rows fixtures.select_parents)
      [[fixtures.joined_row 1 "a"; fixtures.joined_row 1 "b"]; [fixtures.joined_row 2 "c"]].
Proof.
  destruct (result_stream_groups_runs (λ _, fixtures.scenario) fixtures.select_parents
              fixtures.parents_key) as [Hflat _].
  - intros row Hrow. unfold fixtures.scenario in Hrow.
    repeat (apply elem_of_cons in Hrow as [->|Hrow]; [vm_compute; reflexivity|]).
    by apply elem_of_nil in Hrow.
  - intros g e Hg.
    assert (spec.runs fixtures.parents_key fixtures.scenario
            = [[fixtures.joined_row 1 "a"; fixtures.joined_row 1 "b"];
               [fixtures.joined_row 2 "c"]]) as Hruns by (vm_compute; reflexivity).
    rewrite Hruns in Hg.
    repeat (apply elem_of_cons in Hg as [->|Hg]; [vm_compute; discriminate|]).
    by apply elem_of_nil in Hg.
  - exact Hflat.
Defined.

(** ** The definitions at work *)

Example select_where_limit :
  SelectQuery.generate_sql (H := fixtures.sorter_sql)
    (SelectQuery.limit
       (SelectQuery.where_ fixtures.select_users
          [predicate.as_operator (Eq fixtures.users_id (Value (VInt 2)))]) 1)
  = Ok (fixtures.sql
          ("SELECT 'users'.'id' AS 't_users_id', 'users'.'name' AS 't_users_name'"
             +:+ " FROM 'users'  WHERE 'users'.'id' = $param_0 LIMIT 1"),
        {[ Some "param_0" := Scalar (VInt 2) ]}).
Proof. vm_compute. reflexivity. Qed.

Example select_join_offset_order :
  (q ← SelectQuery.order_by fixtures.select_parents
         [ItemColumn (mkColumn "parents" "pk")] "desc";
   SelectQuery.generate_sql (H := fixtures.sorter_sql) (SelectQuery.offset q 0))
  = Ok (fixtures.sql
          ("SELECT 'parents'.'pk' AS 't_parents_pk',"
             +:+ " 'children'.'child' AS 't_children_child',"
             +:+ " 'children'.'parent_pk' AS 't_children_parent_pk'"
             +:+ " FROM 'parents' JOIN 'children'"
             +:+ " ON 'children'.'parent_pk' = 'parents'.'pk'"
             +:+ " OFFSET 0 ORDER BY 't_parents_pk' DESC"), ∅).
Proof. vm_compute. reflexivity. Qed.

(** The grouping scenario: three rows, two objects; the first was handed
    the relationship data of two rows, the second of one. *)
Example grouping_scenario :
  py.bind (_ResultGenerator.flatten (λ _, fixtures.scenario)
             (_ResultGenerator.__init__ fixtures.select_parents)).1
          (λ rows : list TableRow,
             Ok ((λ row, (_values row !! "pk", length (_relationship_data row),
                          __existed row)) <$> rows))
  = Ok [(Some (VInt 1), 2, true); (Some (VInt 2), 1, true)].
Proof. vm_compute. reflexivity. Qed.

Example stream_ends_with_none :
  (_ResultGenerator.next (λ _, []) (_ResultGenerator.__init__ fixtures.select_parents)).1
  = Ok None.
Proof. reflexivity. Qed.

Example insert_two_rows :
  InsertQuery.generate_sql (H := fixtures.row_sql) fixtures.insert_two
  = [("INSERT INTO users $param_0", {[ "param_0" := VInt 1 ]});
     ("INSERT INTO users $param_1", {[ "param_1" := VInt 2 ]})].
Proof. vm_compute. reflexivity. Qed.

Example mapped_row_round_trip :
  SelectQuery.map_columns fixtures.select_users
    {[ "t_users_id" := VInt 1; "t_users_name" := VStr "a" ]}
  = Ok (mkTableRow {[ "id" := VInt 1; "name" := VStr "a" ]}
                   {[ "id" := VInt 1; "name" := VStr "a" ]}
                   true (Some fixtures.sess) [∅]).
Proof. vm_compute. reflexivity. Qed.

(** * Further properties of the result stream *)

Section stream.
Context (run_select_query : SelectQuery.t → _ResultGenerator.BaseResultSet).

Local Abbreviation anext := (_ResultGenerator.__anext__ run_select_query).
Local Abbreviation gen := _ResultGenerator.mk.

(** What the loop of [_fill] does to the cursor and the buffer, whatever
    it returns: it takes rows off the front of the cursor and puts them, in
    order, at the back of the buffer; and it counts at most one row less
    than it moved. *)
Lemma fill_loop_moves (q : SelectQuery.t) (rs dq : list (dict pyval))
    (last_pkey : option (list pyval)) (n : nat) :
  ∃ moved rest,
    (_ResultGenerator.fill_loop q rs dq last_pkey n).2 = (rest, dq ++ moved)
    ∧ rs = moved ++ rest
    ∧ ∀ filled, (_ResultGenerator.fill_loop q rs dq last_pkey n).1 = Ok filled →
                n ≤ filled ∧ length moved ≤ S (filled - n).
Proof.
  revert dq last_pkey n. induction rs as [|row rs IH]; intros dq last_pkey n.
  - exists [], []. simpl. rewrite app_nil_r. split; [done|]. split; [done|].
    intros filled [= <-]. lia.
  - simpl. destruct (_ResultGenerator.pkey_of q row) as [pk|e]; simpl.
    + assert (Hrec : ∀ lp, ∃ moved rest,
                (_ResultGenerator.fill_loop q rs (dq ++ [row]) lp (S n)).2
                = (rest, dq ++ moved)
                ∧ row :: rs = moved ++ rest
                ∧ ∀ filled,
                    (_ResultGenerator.fill_loop q rs (dq ++ [row]) lp (S n)).1 = Ok filled →
                    n ≤ filled ∧ length moved ≤ S (filled - n)).
      { intros lp. destruct (IH (dq ++ [row]) lp (S n)) as (moved & rest & Hst & -> & Hn).
        exists (row :: moved), rest. rewrite Hst, <- app_assoc. split; [done|].
        split; [done|]. intros filled Hf. destruct (Hn filled Hf). simpl. lia. }
      destruct last_pkey as [last|]; [|apply Hrec].
      destruct (decide (pk = last)); [apply Hrec|].
      exists [row], rs. simpl. split; [done|]. split; [done|].
      intros filled [= <-]. lia.
    + exists [row], rs. simpl. split; [done|]. split; [done|]. done.
Qed.

(** X1. [_fill] never drops, duplicates or reorders a row: it only moves a
    prefix of the cursor's rows to the back of the buffer, also when it
    raises.  Without a result set it raises and leaves the generator as it
    was. *)
Theorem fill_moves_cursor_rows_to_buffer (q : SelectQuery.t)
    (results deque : list (dict pyval)) :
  (∃ moved rest,
      results = moved ++ rest
      ∧ (_ResultGenerator._fill (gen q (Some results) deque)).2
        = gen q (Some rest) (deque ++ moved))
  ∧ is_ok (_ResultGenerator._fill (gen q None deque)).1 = false
  ∧ (_ResultGenerator._fill (gen q None deque)).2 = gen q None deque.
Proof.
  unfold _ResultGenerator._fill. simpl.
  destruct (match deque with
            | [] => Ok (None, 0)
            | first :: _ =>
                last_pkey ← _ResultGenerator.pkey_of q first; Ok (Some last_pkey, 1)
            end) as [[last_pkey n]|e]; simpl.
  - split; [|done].
    destruct (fill_loop_moves q results deque last_pkey n) as (moved & rest & Hst & -> & _).
    destruct (_ResultGenerator.fill_loop q (moved ++ rest) deque last_pkey n)
      as [filled [rest' deque']].
    simpl in Hst. injection Hst as -> ->. by exists moved, rest.
  - split; [|done]. exists [], results. by rewrite app_nil_r.
Qed.

Lemma popleft_n_ok (filled : nat) (deque rows deque' : list (dict pyval)) :
  _ResultGenerator.popleft_n filled deque = (Ok rows, deque') →
  deque = rows ++ deque' ∧ length rows = filled.
Proof.
  revert deque rows deque'.
  induction filled as [|filled IH]; intros deque rows deque'; simpl.
  - by intros [= <- <-].
  - destruct deque as [|row deque]; [done|].
    destruct (_ResultGenerator.popleft_n filled deque) as [[rows0|e] deque0] eqn:Hpop;
      simpl; [|done].
    intros [= <- <-]. destruct (IH _ _ _ Hpop) as [-> <-]. done.
Qed.

(** X2. The buffer holds at most one row between calls: if it holds at
    most one row before a call of [__anext__] and the call returns a row
    object, it holds at most one row afterwards (the first row of the next
    run, if any). *)
Theorem anext_keeps_buffer_small (self : _ResultGenerator.t) :
  length (_ResultGenerator._result_deque self) ≤ 1 →
  is_ok (anext self).1 = true →
  length (_ResultGenerator._result_deque (anext self).2) ≤ 1.
Proof.
  intros Hdq. unfold _ResultGenerator.__anext__.
  assert (∃ results, _ResultGenerator.ensure_results run_select_query self
                     = gen (_ResultGenerator.query self) (Some results)
                           (_ResultGenerator._result_deque self)) as [results ->].
  { unfold _ResultGenerator.ensure_results.
    destruct self as [q [results|] deque]; simpl; eauto. }
  unfold _ResultGenerator._fill. simpl.
  destruct (_ResultGenerator._result_deque self) as [|first [|]] eqn:Hdeque;
    simpl in Hdq; [| |lia].
  - simpl.
    destruct (fill_loop_moves (_ResultGenerator.query self) results [] None 0)
      as (moved & rest & Hst & _ & Hn).
    destruct (_ResultGenerator.fill_loop _ results [] None 0) as [filled [rest' deque']].
    simpl in Hst. injection Hst as -> ->.
    destruct filled as [[|filled]|e]; [done| |done].
    destruct (Hn _ eq_refl) as [_ Hlen].
    cbn [_ResultGenerator._result_deque _ResultGenerator.query _ResultGenerator._results].
    destruct (_ResultGenerator.popleft_n (S filled) moved) as [[rows|e] deque''] eqn:Hpop;
      [|done].
    intros _. simpl. apply popleft_n_ok in Hpop as [-> Hrows].
    rewrite length_app in Hlen. lia.
  - destruct (_ResultGenerator.pkey_of (_ResultGenerator.query self) first) as [pk|e];
      [|done]. simpl.
    destruct (fill_loop_moves (_ResultGenerator.query self) results [first] (Some pk) 1)
      as (moved & rest & Hst & _ & Hn).
    destruct (_ResultGenerator.fill_loop _ results [first] (Some pk) 1)
      as [filled [rest' deque']].
    simpl in Hst. injection Hst as -> ->.
    destruct filled as [[|filled]|e]; [done| |done].
    destruct (Hn _ eq_refl) as [Hle Hlen].
    cbn [_ResultGenerator._result_deque _ResultGenerator.query _ResultGenerator._results].
    destruct (_ResultGenerator.popleft_n (S filled) (first :: moved))
      as [[rows|e] deque''] eqn:Hpop; [|done].
    intros _. simpl. apply popleft_n_ok in Hpop as [Heq Hrows].
    apply (f_equal length) in Heq. simpl in Heq. rewrite length_app in Heq. lia.
Qed.

End stream.

Lemma anext_keeps_buffer_small_witness :
  length (_ResultGenerator._result_deque
            (_ResultGenerator.__anext__ (λ _, fixtures.scenario)
               (_ResultGenerator.__init__ fixtures.select_parents)).2) ≤ 1.
Proof.
  apply anext_keeps_buffer_small.
  - simpl. lia.
  - vm_compute. reflexivity.
Defined.

Section stream_runs.
Context (run_select_query : SelectQuery.t → _ResultGenerator.BaseResultSet).
Context (q : SelectQuery.t).

Local Abbreviation anext := (_ResultGenerator.__anext__ run_select_query).
Local Abbreviation gen := _ResultGenerator.mk.
Local Abbreviation exhausted := (_ResultGenerator.mk q (Some []) []).
Local Abbreviation stop := (mkException StopAsyncIteration "" None).

(** X3. A generator with nothing buffered and nothing left in the cursor
    is at its end and stays there: [__anext__] raises [StopAsyncIteration],
    [next] returns [None] and [flatten] returns the empty list, each
    leaving the generator exhausted, however often they are called and
    whether or not the query has a table. *)
Theorem exhausted_stream_stays_exhausted (self : _ResultGenerator.t) :
  _ResultGenerator.query self = q →
  _ResultGenerator._result_deque self = [] →
  _ResultGenerator._results (_ResultGenerator.ensure_results run_select_query self)
  = Some [] →
  anext self = (Raise stop, exhausted)
  ∧ _ResultGenerator.next run_select_query self = (Ok None, exhausted)
  ∧ _ResultGenerator.flatten run_select_query self = (Ok [], exhausted)
  ∧ anext exhausted = (Raise stop, exhausted).
Proof.
  intros Hq Hdq Hres.
  assert (Hnext : anext self = (Raise stop, exhausted)).
  { unfold _ResultGenerator.__anext__.
    destruct self as [q' results deque]. simpl in Hq, Hdq. subst q' deque.
    assert (_ResultGenerator.ensure_results run_select_query (gen q results [])
            = exhausted) as ->; [|done].
    unfold _ResultGenerator.ensure_results in *. simpl in *.
    destruct results as [results|]; simpl in Hres; by injection Hres as ->. }
  split; [done|]. split; [|split; [|done]].
  - unfold _ResultGenerator.next. by rewrite Hnext.
  - unfold _ResultGenerator.flatten. by rewrite flatten_loop_step, Hnext.
Qed.

Lemma pkey_of_error (row : dict pyval) (e : Exception) :
  _ResultGenerator.pkey_of q row = Raise e →
  match SelectQuery.table q with
  | None => e = SelectQuery.no_attribute "primary_key"
  | Some tbl =>
      ∃ present col rest,
        primary_key tbl = present ++ col :: rest
        ∧ Forall (λ c, is_Some (row !! md_column.alias_name c None false)) present
        ∧ row !! md_column.alias_name col None false = None
        ∧ e = mkException KeyError (md_column.alias_name col None false) None
  end.
Proof.
  unfold _ResultGenerator.pkey_of.
  destruct (SelectQuery.table q) as [tbl|]; [|by intros [= <-]].
  induction (primary_key tbl) as [|col cols IH]; [done|].
  cbn [traverse].
  destruct (getitem row (md_column.alias_name col None false)) as [v|e0] eqn:Hget.
  - destruct (traverse _ cols) as [vs|e'] eqn:Htr; [done|].
    intros [= <-]. destruct (IH eq_refl) as (present & col' & rest & -> & Hpresent & Hnone & He).
    exists (col :: present), col', rest. split; [done|]. split; [|done].
    apply Forall_cons. split; [|done].
    unfold getitem in Hget.
    by destruct (row !! md_column.alias_name col None false).
  - intros [= <-]. unfold getitem in Hget.
    destruct (row !! md_column.alias_name col None false) eqn:Hv; [done|].
    injection Hget as <-. by exists [], col, cols.
Qed.

(** X4. A row that lacks a primary-key alias blocks the stream: the call
    that fetches it raises, the row stays in the buffer, and every later
    call raises the same error without fetching anything; so does
    [flatten].  With a table set the error is the [KeyError] of the first
    missing primary-key alias: the row has the aliases of all primary-key
    columns before that one. *)
Theorem row_without_primary_key_blocks_stream (row : dict pyval)
    (rest : list (dict pyval)) (e : Exception) :
  _ResultGenerator.pkey_of q row = Raise e →
  let stuck := gen q (Some rest) [row] in
  anext (gen q (Some (row :: rest)) []) = (Raise e, stuck)
  ∧ anext stuck = (Raise e, stuck)
  ∧ _ResultGenerator.flatten run_select_query (gen q (Some (row :: rest)) [])
    = (Raise e, stuck)
  ∧ match SelectQuery.table q with
    | None => e = SelectQuery.no_attribute "primary_key"
    | Some tbl =>
        ∃ present col later,
          primary_key tbl = present ++ col :: later
          ∧ Forall (λ c, is_Some (row !! md_column.alias_name c None false)) present
          ∧ row !! md_column.alias_name col None false = None
          ∧ e = mkException KeyError (md_column.alias_name col None false) None
    end.
Proof.
  intros Hpk stuck.
  assert (Hfirst : anext (gen q (Some (row :: rest)) []) = (Raise e, stuck)).
  { unfold _ResultGenerator.__anext__, _ResultGenerator._fill. simpl. by rewrite Hpk. }
  assert (Hagain : anext stuck = (Raise e, stuck)).
  { unfold _ResultGenerator.__anext__, _ResultGenerator._fill. simpl. by rewrite Hpk. }
  pose proof (pkey_of_error row e Hpk) as Hkind.
  split; [done|]. split; [done|]. split; [|done].
  unfold _ResultGenerator.flatten. rewrite flatten_loop_step, Hfirst.
  rewrite decide_False; [done|].
  destruct (SelectQuery.table q);
    [by destruct Hkind as (present & col & later & _ & _ & _ & ->)|by subst e].
Qed.

Context (key : dict pyval → list pyval).

Local Abbreviation keyed := (Forall (λ row, _ResultGenerator.pkey_of q row = Ok (key row))).

Lemma flatten_groups_exhausts (groups : list (list (dict pyval)))
    (dq rs : list (dict pyval)) (acc objs : list TableRow) :
  length dq ≤ 1 → keyed (dq ++ rs) → spec.runs key (dq ++ rs) = groups →
  traverse (_ResultGenerator.map_rows q) groups = Ok objs →
  _ResultGenerator.flatten_loop run_select_query (gen q (Some rs) dq) acc
  = (Ok (acc ++ objs), exhausted).
Proof.
  revert dq rs acc objs.
  induction groups as [|g gs IH]; intros dq rs acc objs Hdq Hkeys Hruns Hmap.
  - pose proof (runs_concat key (dq ++ rs)) as Hnil. rewrite Hruns in Hnil.
    symmetry in Hnil. apply app_eq_nil in Hnil as [-> ->].
    injection Hmap as <-.
    rewrite flatten_loop_step, anext_end. simpl. by rewrite app_nil_r.
  - destruct (anext_group run_select_query q key dq rs g gs Hdq Hkeys Hruns) as [Hnext Hgs].
    rewrite flatten_loop_step, Hnext. cbn [traverse] in Hmap.
    destruct (_ResultGenerator.map_rows q g) as [obj|e]; [|done]. simpl in Hmap.
    destruct (traverse (_ResultGenerator.map_rows q) gs) as [objs'|e] eqn:Hgsmap; [|done].
    injection Hmap as <-.
    rewrite (IH _ _ _ objs').
    + by rewrite <- app_assoc.
    + rewrite length_take. lia.
    + rewrite take_drop.
      pose proof (runs_concat key (dq ++ rs)) as Hcat. rewrite Hruns in Hcat.
      rewrite <- Hcat in Hkeys. simpl in Hkeys. by apply Forall_app in Hkeys as [_ ?].
    + by rewrite take_drop.
    + done.
Qed.

Lemma traverse_length {A B} (f : A → Result B) (l : list A) (l' : list B) :
  traverse f l = Ok l' → length l' = length l.
Proof.
  revert l'. induction l as [|x l IH]; intros l'; simpl; [by intros [= <-]|].
  destruct (f x) as [y|e]; [|done]. simpl.
  destruct (traverse f l) as [ys|e]; [|done]. simpl.
  intros [= <-]. simpl. by rewrite (IH ys).
Qed.

Lemma flatten_all_runs (objs : list TableRow) :
  keyed (run_select_query q) →
  traverse (_ResultGenerator.map_rows q) (spec.runs key (run_select_query q)) = Ok objs →
  _ResultGenerator.flatten run_select_query (_ResultGenerator.__init__ q)
  = (Ok objs, exhausted).
Proof.
  intros Hkeys Hmap. unfold _ResultGenerator.flatten.
  assert (_ResultGenerator.flatten_loop run_select_query (_ResultGenerator.__init__ q) []
          = _ResultGenerator.flatten_loop run_select_query
              (gen q (Some (run_select_query q)) []) []) as ->.
  { rewrite (flatten_loop_step _ (_ResultGenerator.__init__ q)),
      (flatten_loop_step _ (gen _ _ _)). reflexivity. }
  by rewrite (flatten_groups_exhausts (spec.runs key (run_select_query q)) []
                (run_select_query q) [] objs); [|simpl; lia|..].
Qed.

(** X5. When every run maps, [flatten] returns one object per run and
    leaves the generator exhausted: the stream cannot be restarted, a
    second [flatten] returns the empty list. *)
Theorem flatten_exhausts_stream (objs : list TableRow) :
  (∀ row, row ∈ run_select_query q → _ResultGenerator.pkey_of q row = Ok (key row)) →
  traverse (_ResultGenerator.map_rows q) (spec.runs key (run_select_query q)) = Ok objs →
  _ResultGenerator.flatten run_select_query (_ResultGenerator.__init__ q)
  = (Ok objs, exhausted)
  ∧ _ResultGenerator.flatten run_select_query exhausted = (Ok [], exhausted)
  ∧ length objs = length (spec.runs key (run_select_query q)).
Proof.
  intros Hkeys Hmap. apply Forall_forall in Hkeys.
  split; [|split].
  - by apply flatten_all_runs.
  - unfold _ResultGenerator.flatten. by rewrite flatten_loop_step, anext_end.
  - by eapply traverse_length.
Qed.

Lemma runs_singletons (rows : list (dict pyval)) :
  (∀ i r1 r2, rows !! i = Some r1 → rows !! S i = Some r2 → key r1 ≠ key r2) →
  spec.runs key rows = (λ r, [r]) <$> rows.
Proof.
  induction rows as [|r rows IH]; intros Hadj; [done|].
  cbn [spec.runs]. rewrite IH by (intros i; apply (Hadj (S i))).
  destruct rows as [|r' rows]; [done|]. simpl.
  rewrite decide_False; [done|]. by apply (Hadj 0).
Qed.

(** X6. When no two consecutive rows of the cursor share their primary
    key (a select without joins), every row yields its own object:
    [flatten] returns [map_columns] of each row, in cursor order. *)
Theorem rows_with_distinct_keys_map_one_to_one (objs : list TableRow) :
  (∀ row, row ∈ run_select_query q → _ResultGenerator.pkey_of q row = Ok (key row)) →
  (∀ i r1 r2, run_select_query q !! i = Some r1 → run_select_query q !! S i = Some r2 →
              key r1 ≠ key r2) →
  traverse (SelectQuery.map_columns q) (run_select_query q) = Ok objs →
  (_ResultGenerator.flatten run_select_query (_ResultGenerator.__init__ q)).1 = Ok objs
  ∧ length objs = length (run_select_query q).
Proof.
  intros Hkeys Hadj Hmap.
  assert (Hruns : traverse (_ResultGenerator.map_rows q)
                    (spec.runs key (run_select_query q)) = Ok objs).
  { rewrite runs_singletons by done. rewrite <- Hmap. clear.
    induction (run_select_query q) as [|r rows IH]; [done|].
    rewrite fmap_cons. cbn [traverse]. by rewrite IH. }
  apply Forall_forall in Hkeys.
  rewrite (flatten_all_runs objs Hkeys Hruns).
  split; [done|]. by eapply traverse_length.
Qed.

Lemma run_on_all (k : list pyval) (rows : list (dict pyval)) :
  (∀ row, row ∈ rows → key row = k) →
  spec.run_on key k rows = rows ∧ spec.after_run key k rows = [].
Proof.
  induction rows as [|r rows IH]; intros Hall; [done|]. simpl.
  rewrite !decide_True by (apply Hall; left).
  destruct IH as [IH1 IH2]; [intros row Hrow; apply Hall; by right|].
  by rewrite IH1, IH2.
Qed.

(** X7. K rows with one primary key are one object: the first call of
    [__anext__] maps all K rows together and advances the stream past all
    of them, leaving nothing buffered. *)
Theorem run_on_rows_map_to_one_object (r : dict pyval) (rest : list (dict pyval)) :
  run_select_query q = r :: rest →
  (∀ row, row ∈ r :: rest → _ResultGenerator.pkey_of q row = Ok (key row)) →
  (∀ row, row ∈ rest → key row = key r) →
  anext (_ResultGenerator.__init__ q)
  = (_ResultGenerator.map_rows q (r :: rest), exhausted).
Proof.
  intros Hrows Hkeys Hsame.
  change (anext (_ResultGenerator.__init__ q))
    with (anext (gen q (Some (run_select_query q)) [])).
  rewrite Hrows.
  rewrite (anext_run run_select_query q key [] (r :: rest) r rest); [|simpl; lia|done..].
  by destruct (run_on_all (key r) rest Hsame) as [-> ->].
Qed.

End stream_runs.

(** X8. A table without primary key columns gives every row the empty
    key, so the whole result set collapses into one object: the first
    [__anext__] maps all rows together and exhausts the stream. *)
Theorem empty_primary_key_merges_all_rows
    (run_select_query : SelectQuery.t → _ResultGenerator.BaseResultSet)
    (q : SelectQuery.t) (tbl : Table) (r : dict pyval) (rest : list (dict pyval)) :
  SelectQuery.table q = Some tbl → primary_key tbl = [] →
  run_select_query q = r :: rest →
  _ResultGenerator.__anext__ run_select_query (_ResultGenerator.__init__ q)
  = (_ResultGenerator.map_rows q (r :: rest), _ResultGenerator.mk q (Some []) []).
Proof.
  intros Htbl Hpk Hrows.
  assert (Hkey : ∀ row, _ResultGenerator.pkey_of q row = Ok ((λ _, []) row)).
  { intros row. unfold _ResultGenerator.pkey_of. by rewrite Htbl, Hpk. }
  change (_ResultGenerator.__anext__ run_select_query (_ResultGenerator.__init__ q))
    with (_ResultGenerator.__anext__ run_select_query
            (_ResultGenerator.mk q (Some (run_select_query q)) [])).
  rewrite Hrows.
  rewrite (anext_run run_select_query q (λ _, []) [] (r :: rest) r rest);
    [|simpl; lia|done|by intros].
  by destruct (run_on_all (λ _, []) [] rest) as [-> ->].
Qed.

Lemma exhausted_stream_stays_exhausted_witness :
  _ResultGenerator.next (λ _, [])
    (_ResultGenerator.__init__ (SelectQuery.__init__ fixtures.sess))
  = (Ok None, _ResultGenerator.mk (SelectQuery.__init__ fixtures.sess) (Some []) []).
Proof.
  destruct (exhausted_stream_stays_exhausted (λ _, [])
              (SelectQuery.__init__ fixtures.sess)
              (_ResultGenerator.__init__ (SelectQuery.__init__ fixtures.sess))
              eq_refl eq_refl eq_refl) as (_ & Hnext & _).
  exact Hnext.
Defined.

Lemma row_without_primary_key_blocks_stream_witness :
  _ResultGenerator.__anext__ (λ _, [])
    (_ResultGenerator.mk fixtures.select_parents (Some []) [fixtures.orphan_row])
  = (Raise (mkException KeyError "t_parents_pk" None),
     _ResultGenerator.mk fixtures.select_parents (Some []) [fixtures.orphan_row]).
Proof.
  destruct (row_without_primary_key_blocks_stream (λ _, []) fixtures.select_parents
              fixtures.orphan_row [] (mkException KeyError "t_parents_pk" None))
    as (_ & Hagain & _).
  - vm_compute. reflexivity.
  - exact Hagain.
Defined.

Lemma flatten_exhausts_stream_witness :
  ∃ objs,
    _ResultGenerator.flatten (λ _, fixtures.scenario)
      (_ResultGenerator.__init__ fixtures.select_parents)
    = (Ok objs, _ResultGenerator.mk fixtures.select_parents (Some []) [])
    ∧ length objs = 2.
Proof.
  assert (∃ objs, traverse (_ResultGenerator.map_rows fixtures.select_parents)
                    (spec.runs fixtures.parents_key fixtures.scenario) = Ok objs)
    as [objs Hmap] by (eexists; vm_compute; reflexivity).
  destruct (flatten_exhausts_stream (λ _, fixtures.scenario) fixtures.select_parents
              fixtures.parents_key objs) as (Hflat & _ & Hlen).
  - intros row Hrow. unfold fixtures.scenario in Hrow.
    repeat (apply elem_of_cons in Hrow as [->|Hrow]; [vm_compute; reflexivity|]).
    apply elem_of_nil in Hrow. destruct Hrow.
  - exact Hmap.
  - exists objs. split; [exact Hflat|]. rewrite Hlen. vm_compute. reflexivity.
Defined.

Lemma rows_with_distinct_keys_map_one_to_one_witness :
  ∃ objs,
    (_ResultGenerator.flatten
       (λ _, [fixtures.user_row 1 "a"; fixtures.user_row 2 "b"])
       (_ResultGenerator.__init__ fixtures.select_users)).1 = Ok objs
    ∧ length objs = 2.
Proof.
  assert (∃ objs, traverse (SelectQuery.map_columns fixtures.select_users)
                    [fixtures.user_row 1 "a"; fixtures.user_row 2 "b"] = Ok objs)
    as [objs Hmap] by (eexists; vm_compute; reflexivity).
  exists objs.
  apply (rows_with_distinct_keys_map_one_to_one
           (λ _, [fixtures.user_row 1 "a"; fixtures.user_row 2 "b"])
           fixtures.select_users fixtures.users_key objs).
  - intros row Hrow.
    repeat (apply elem_of_cons in Hrow as [->|Hrow]; [vm_compute; reflexivity|]).
    apply elem_of_nil in Hrow. destruct Hrow.
  - intros i r1 r2 H1 H2.
    destruct i as [|[|i]]; cbn [lookup list_lookup] in H1, H2;
      [|discriminate H2|discriminate H1].
    injection H1 as <-. injection H2 as <-. vm_compute. discriminate.
  - exact Hmap.
Defined.

Lemma run_on_rows_map_to_one_object_witness :
  _ResultGenerator.__anext__
    (λ _, [fixtures.joined_row 1 "a"; fixtures.joined_row 1 "b"])
    (_ResultGenerator.__init__ fixtures.select_parents)
  = (_ResultGenerator.map_rows fixtures.select_parents
       [fixtures.joined_row 1 "a"; fixtures.joined_row 1 "b"],
     _ResultGenerator.mk fixtures.select_parents (Some []) []).
Proof.
  apply (run_on_rows_map_to_one_object
           (λ _, [fixtures.joined_row 1 "a"; fixtures.joined_row 1 "b"])
           fixtures.select_parents fixtures.parents_key).
  - reflexivity.
  - intros row Hrow.
    repeat (apply elem_of_cons in Hrow as [->|Hrow]; [vm_compute; reflexivity|]).
    apply elem_of_nil in Hrow. destruct Hrow.
  - intros row Hrow.
    repeat (apply elem_of_cons in Hrow as [->|Hrow]; [vm_compute; reflexivity|]).
    apply elem_of_nil in Hrow. destruct Hrow.
Defined.

Lemma empty_primary_key_merges_all_rows_witness :
  _ResultGenerator.__anext__ (λ _, [fixtures.note_row "x"; fixtures.note_row "y"])
    (_ResultGenerator.__init__ fixtures.select_notes)
  = (_ResultGenerator.map_rows fixtures.select_notes
       [fixtures.note_row "x"; fixtures.note_row "y"],
     _ResultGenerator.mk fixtures.select_notes (Some []) []).
Proof.
  apply (empty_primary_key_merges_all_rows
           (λ _, [fixtures.note_row "x"; fixtures.note_row "y"])
           fixtures.select_notes fixtures.notes);
    reflexivity.
Defined.

(** * Further properties of the query builders *)

(** X9. With a table set, [get_required_join_paths] returns the foreign
    table and the JOIN clause of exactly the relationships whose load type
    is [joined], in declaration order, so both lists have the same length;
    a relationship with another load type contributes nothing.  Without a
    table it raises an [AttributeError]. *)
Theorem join_paths_follow_joined_relationships (q : SelectQuery.t) :
  match SelectQuery.table q with
  | Some tbl =>
      let joined := filter (λ r, load_type r = "joined") (iter_relationships tbl) in
      SelectQuery.get_required_join_paths q
      = Ok (foreign_table <$> joined, SelectQuery.join_clause <$> joined)
      ∧ length (foreign_table <$> joined) = length (SelectQuery.join_clause <$> joined)
      ∧ (∀ r, r ∈ iter_relationships tbl → load_type r ≠ "joined" → r ∉ joined)
  | None =>
      SelectQuery.get_required_join_paths q
      = Raise (SelectQuery.no_attribute "iter_relationships")
  end.
Proof.
  unfold SelectQuery.get_required_join_paths.
  destruct (SelectQuery.table q) as [tbl|]; [|done].
  rewrite get_required_join_paths_fold. simpl.
  split; [done|]. split; [by rewrite !length_fmap|].
  intros r _ Hload [Hjoined _]%list_elem_of_filter. done.
Qed.

(** X10. Compilation succeeds exactly when a table has been set: with a
    table [generate_sql] returns SQL text and parameters whatever the
    conditions, limit, offset and orderer are, and without one it raises an
    [AttributeError] instead of emitting SQL. *)
Theorem generate_sql_needs_table `{SorterSql} (q : SelectQuery.t) :
  (is_ok (SelectQuery.generate_sql q) = true ↔ is_Some (SelectQuery.table q))
  ∧ (SelectQuery.table q = None ↔
     SelectQuery.generate_sql q = Raise (SelectQuery.no_attribute "iter_relationships")).
Proof.
  destruct (SelectQuery.table q) as [tbl|] eqn:Htbl.
  - rewrite (generate_sql_shape q tbl Htbl).
    destruct (foldl _ _ (SelectQuery.conditions q)) as [[params c_sql] counter].
    split; [split; [by eexists|done]|]. split; [done|]. intros Hraise. discriminate Hraise.
  - unfold SelectQuery.generate_sql, SelectQuery.get_required_join_paths.
    rewrite Htbl. simpl. split; [|done].
    split; [done|]. by intros [? ?].
Qed.

Lemma add_conditions (q : SelectQuery.t) (conds : list BaseOperator) :
  SelectQuery.where_ q conds
  = SelectQuery.mk (SelectQuery.session q) (SelectQuery.table q)
      (SelectQuery.conditions q ++ conds) (SelectQuery.row_limit q)
      (SelectQuery.row_offset q) (SelectQuery.orderer q).
Proof.
  unfold SelectQuery.where_. revert q.
  induction conds as [|c conds IH]; intros q; simpl.
  - rewrite app_nil_r. by destruct q.
  - rewrite IH. simpl. by rewrite <- app_assoc.
Qed.

(** X11. [where] accumulates: it appends its conditions, in argument
    order, after the ones already held and changes nothing else, so
    [where(a).where(b)] is the same query as [where(a, b)], and one call
    with several conditions equals one [add_condition] per condition. *)
Theorem where_accumulates (q : SelectQuery.t) (a b : list BaseOperator)
    (c : BaseOperator) :
  SelectQuery.conditions (SelectQuery.where_ q a) = SelectQuery.conditions q ++ a
  ∧ SelectQuery.where_ (SelectQuery.where_ q a) b = SelectQuery.where_ q (a ++ b)
  ∧ SelectQuery.where_ q (a ++ [c]) = SelectQuery.add_condition (SelectQuery.where_ q a) c
  ∧ SelectQuery.table (SelectQuery.where_ q a) = SelectQuery.table q
  ∧ SelectQuery.row_limit (SelectQuery.where_ q a) = SelectQuery.row_limit q
  ∧ SelectQuery.row_offset (SelectQuery.where_ q a) = SelectQuery.row_offset q
  ∧ SelectQuery.orderer (SelectQuery.where_ q a) = SelectQuery.orderer q.
Proof.
  rewrite !add_conditions. unfold SelectQuery.add_condition. simpl.
  repeat split; by rewrite <- ?app_assoc.
Qed.

(** X12. Ordering by one column is ordering by that column's sorter:
    [order_by(col)] and [order_by(col, sort_order="asc")] build what
    [order_by(col.asc())] installs, and [sort_order="desc"] what
    [order_by(col.desc())] installs, whatever direction accompanies the
    sorter.  A successful [order_by] changes the orderer and nothing
    else. *)
Theorem order_by_column_is_order_by_sorter (q : SelectQuery.t) (c : Column)
    (col : list SortItem) (sort_order any_order : string) :
  SelectQuery.order_by q [ItemColumn c] "asc"
  = SelectQuery.order_by q [ItemSorter (md_column.asc c)] any_order
  ∧ SelectQuery.order_by q [ItemColumn c] "desc"
    = SelectQuery.order_by q [ItemSorter (md_column.desc c)] any_order
  ∧ match SelectQuery.order_by q col sort_order with
    | Ok q' =>
        is_Some (SelectQuery.orderer q')
        ∧ SelectQuery.session q' = SelectQuery.session q
        ∧ SelectQuery.table q' = SelectQuery.table q
        ∧ SelectQuery.conditions q' = SelectQuery.conditions q
        ∧ SelectQuery.row_limit q' = SelectQuery.row_limit q
        ∧ SelectQuery.row_offset q' = SelectQuery.row_offset q
    | Raise e => exc_class e = TypeError
    end.
Proof.
  split; [done|]. split; [done|].
  unfold SelectQuery.order_by.
  destruct col as [|[c'|s] [|item col]]; simpl; try done;
    repeat case_decide; simpl; eauto 10.
Qed.

(** X13. An error of the table's constructor that is not a [TypeError]
    reaches the caller of [map_columns] unchanged; only a [TypeError] is
    replaced.  Without a table [map_columns] raises an [AttributeError]
    before it looks at the row. *)
Theorem map_columns_propagates_other_errors (q : SelectQuery.t) (tbl : Table)
    (results : dict pyval) (e : Exception) :
  SelectQuery.table q = Some tbl →
  schema.__init__ tbl
    (map_fold (SelectQuery.split_column (SelectQuery.alias_mapping tbl)) (∅, ∅) results).1
  = Raise e →
  exc_class e ≠ TypeError →
  SelectQuery.map_columns q results = Raise e
  ∧ SelectQuery.map_columns
      (SelectQuery.mk (SelectQuery.session q) None (SelectQuery.conditions q)
         (SelectQuery.row_limit q) (SelectQuery.row_offset q) (SelectQuery.orderer q))
      results
    = Raise (SelectQuery.no_attribute "iter_columns").
Proof.
  intros Htbl Hinit Hclass. split; [|done].
  unfold SelectQuery.map_columns. rewrite Htbl.
  destruct (map_fold _ _ results) as [row_expando relation_data].
  simpl in Hinit. rewrite Hinit. by rewrite decide_False.
Qed.

Lemma map_columns_propagates_other_errors_witness :
  SelectQuery.map_columns fixtures.select_broken {[ "t_broken_id" := VInt 1 ]}
  = Raise (mkException KeyError "id" None).
Proof.
  apply (map_columns_propagates_other_errors fixtures.select_broken fixtures.broken).
  - reflexivity.
  - reflexivity.
  - discriminate.
Defined.

(** X14. A group of one row is mapped the same way by both branches of
    [__anext__]: [map_many] of a single row is [map_columns] of that row,
    so the stream maps every non-empty group as [map_many] does.  An error
    of [map_columns] on the first row is the error of [map_many], and
    [map_many] without rows raises an [IndexError]. *)
Theorem single_row_branch_agrees_with_map_many (q : SelectQuery.t)
    (row : dict pyval) (rows : list (dict pyval)) :
  SelectQuery.map_many q [row] = SelectQuery.map_columns q row
  ∧ _ResultGenerator.map_rows q (row :: rows) = SelectQuery.map_many q (row :: rows)
  ∧ (∀ e, SelectQuery.map_columns q row = Raise e →
          SelectQuery.map_many q (row :: rows) = Raise e)
  ∧ SelectQuery.map_many q []
    = Raise (mkException IndexError "tuple index out of range" None).
Proof.
  assert (Hone : SelectQuery.map_many q [row] = SelectQuery.map_columns q row).
  { unfold SelectQuery.map_many. by destruct (SelectQuery.map_columns q row). }
  split; [done|]. split; [|split; [|done]].
  - destruct rows; [|done]. by rewrite Hone.
  - intros e He. unfold SelectQuery.map_many. by rewrite He.
Qed.

(** ** The alias mapping of [map_columns] *)

Section alias_mapping.
Context (tbl : Table).

Local Abbreviation alias := (λ column : Column,
  md_column.alias_name column (Some (__tablename__ tbl)) false).

Lemma alias_name_of_table_inj (c1 c2 : Column) : alias c1 = alias c2 → name c1 = name c2.
Proof.
  unfold md_column.alias_name. intros Heq.
  by do 3 apply String.app_inj in Heq.
Qed.

Lemma alias_mapping_fold (cols : list Column) (m0 : dict Column) :
  let m := foldl (λ mapping column, <[alias column := column]> mapping) m0 cols in
  (∀ k c, m !! k = Some c → (c ∈ cols ∧ k = alias c) ∨ m0 !! k = Some c)
  ∧ (∀ k c0, m0 !! k = Some c0 →
             ∃ c, m !! k = Some c ∧ (c = c0 ∨ (c ∈ cols ∧ alias c = k)))
  ∧ (∀ c, c ∈ cols → ∃ c', m !! alias c = Some c' ∧ c' ∈ cols ∧ alias c' = alias c).
Proof.
  revert m0. induction cols as [|x cols IH]; intros m0; simpl.
  - split; [by right|]. split; [eauto|]. by intros c ?%elem_of_nil.
  - destruct (IH (<[alias x := x]> m0)) as (Hfrom & Hkeep & Hin).
    split; [|split].
    + intros k c Hk. destruct (Hfrom k c Hk) as [[? ->]|Hm0].
      * left. split; [by right|done].
      * destruct (decide (alias x = k)) as [<-|Hne].
        -- rewrite lookup_insert_eq in Hm0. injection Hm0 as <-. left. split; [left|done].
        -- rewrite lookup_insert_ne in Hm0 by done. by right.
    + intros k c0 Hk.
      destruct (decide (alias x = k)) as [<-|Hne].
      * destruct (Hkeep (alias x) x) as (c & Hc & Hor); [by rewrite lookup_insert_eq|].
        exists c. split; [done|]. right.
        destruct Hor as [->|[? ?]]; [split; [left|done]|split; [by right|done]].
      * destruct (Hkeep k c0) as (c & Hc & Hor); [by rewrite lookup_insert_ne|].
        exists c. split; [done|]. destruct Hor as [->|[? ?]]; [by left|].
        right. split; [by right|done].
    + intros c [->|Hc]%elem_of_cons.
      * destruct (Hkeep (alias x) x) as (c & Hc & Hor); [by rewrite lookup_insert_eq|].
        exists c. split; [done|].
        destruct Hor as [->|[? ?]]; [split; [left|done]|split; [by right|done]].
      * destruct (Hin c Hc) as (c' & Hc' & ? & ?). exists c'. split; [done|].
        split; [by right|done].
Qed.

Lemma alias_mapping_columns (c : Column) :
  c ∈ iter_columns tbl →
  ∃ c', SelectQuery.alias_mapping tbl !! alias c = Some c'
        ∧ c' ∈ iter_columns tbl ∧ name c' = name c.
Proof.
  destruct (alias_mapping_fold (iter_columns tbl) ∅) as (_ & _ & Hin).
  intros Hc. destruct (Hin c Hc) as (c' & Hc' & ? & Halias).
  exists c'. split; [done|]. split; [done|]. by apply alias_name_of_table_inj.
Qed.

Lemma alias_mapping_keys (k : string) (c : Column) :
  SelectQuery.alias_mapping tbl !! k = Some c → c ∈ iter_columns tbl ∧ k = alias c.
Proof.
  destruct (alias_mapping_fold (iter_columns tbl) ∅) as (Hfrom & _ & _).
  intros Hk. destruct (Hfrom k c Hk) as [?|Hempty]; [done|].
  by rewrite lookup_empty in Hempty.
Qed.

(** X15. The alias mapping that [map_columns] builds finds every column
    of the table under its alias for that table, up to the column's name
    (a later column with the same name wins), and holds nothing else: what
    is stored under a key is a column of the table whose alias is the
    key. *)
Theorem alias_mapping_lookup :
  (∀ c, c ∈ iter_columns tbl →
        ∃ c', SelectQuery.alias_mapping tbl !! alias c = Some c'
              ∧ c' ∈ iter_columns tbl ∧ name c' = name c)
  ∧ (∀ k c, SelectQuery.alias_mapping tbl !! k = Some c →
            c ∈ iter_columns tbl ∧ k = alias c).
Proof.
  split; [apply alias_mapping_columns|apply alias_mapping_keys].
Qed.

(** X16. [map_columns] splits a fetched row in two: the values under the
    aliases of the table's columns go to the constructor, keyed by the real
    column names, and everything else goes to the relationship data under
    its own key, unchanged.  Nothing is dropped or invented. *)
Theorem map_columns_splits_row (results : dict pyval) :
  let '(row_expando, relation_data) :=
    map_fold (SelectQuery.split_column (SelectQuery.alias_mapping tbl)) (∅, ∅) results in
  relation_data
  = filter (λ kv, SelectQuery.alias_mapping tbl !! kv.1 = None) results
  ∧ (∀ c, c ∈ iter_columns tbl → row_expando !! name c = results !! alias c)
  ∧ (∀ n, is_Some (row_expando !! n) → ∃ c, c ∈ iter_columns tbl ∧ name c = n).
Proof.
  pose proof alias_mapping_columns as Hcols. pose proof alias_mapping_keys as Hkeys.
  assert (Hfold :
    (λ (acc : dict pyval * dict pyval) (m : dict pyval),
       acc.2 = filter (λ kv, SelectQuery.alias_mapping tbl !! kv.1 = None) m
       ∧ (∀ k c, SelectQuery.alias_mapping tbl !! k = Some c →
                 acc.1 !! name c = m !! k)
       ∧ (∀ n, is_Some (acc.1 !! n) →
               ∃ k c, SelectQuery.alias_mapping tbl !! k = Some c ∧ name c = n))
      (map_fold (SelectQuery.split_column (SelectQuery.alias_mapping tbl)) (∅, ∅) results)
      results).
  { apply (map_fold_weak_ind
             (λ (acc : dict pyval * dict pyval) (m : dict pyval),
                acc.2 = filter (λ kv, SelectQuery.alias_mapping tbl !! kv.1 = None) m
                ∧ (∀ k c, SelectQuery.alias_mapping tbl !! k = Some c →
                          acc.1 !! name c = m !! k)
                ∧ (∀ n, is_Some (acc.1 !! n) →
                        ∃ k c, SelectQuery.alias_mapping tbl !! k = Some c ∧ name c = n))).
    - simpl. split; [by rewrite map_filter_empty|].
      split; [intros; by rewrite !lookup_empty|].
      intros n [v Hv]. by rewrite lookup_empty in Hv.
    - intros i x m [re rd] Hi (Hrd & Hre & Hdom). simpl in Hrd, Hre, Hdom.
      unfold SelectQuery.split_column.
      destruct (SelectQuery.alias_mapping tbl !! i) as [c|] eqn:Hmap; simpl.
      + split; [|split].
        * rewrite map_filter_insert_False by (simpl; by rewrite Hmap).
          by rewrite delete_id.
        * intros k c' Hk. destruct (decide (k = i)) as [->|Hne].
          -- rewrite Hmap in Hk. injection Hk as <-. by rewrite !lookup_insert_eq.
          -- assert (name c ≠ name c') as Hname.
             { intros Heq. apply Hne.
               destruct (Hkeys _ _ Hk) as [_ ->]. destruct (Hkeys _ _ Hmap) as [_ ->].
               unfold md_column.alias_name. by rewrite Heq. }
             rewrite !lookup_insert_ne by done. by apply Hre.
        * intros n [v Hv]. destruct (decide (name c = n)) as [<-|Hne]; [by eauto|].
          rewrite lookup_insert_ne in Hv by done. apply Hdom. by exists v.
      + split; [|split].
        * rewrite map_filter_insert_True by (simpl; by rewrite Hmap). by rewrite Hrd.
        * intros k c' Hk. rewrite lookup_insert_ne by congruence. by apply Hre.
        * done. }
  destruct (map_fold _ _ results) as [row_expando relation_data].
  destruct Hfold as (Hrd & Hre & Hdom). simpl in Hrd, Hre, Hdom.
  split; [done|]. split.
  - intros c Hc. destruct (Hcols c Hc) as (c' & Hc' & _ & Hname).
    rewrite <- Hname. by apply Hre.
  - intros n Hn. destruct (Hdom n Hn) as (k & c & Hk & <-).
    exists c. split; [|done]. by destruct (Hkeys _ _ Hk).
Qed.

End alias_mapping.

(** * Further properties of the row queries *)

Lemma insert_rows_fold (q : InsertQuery.t) (rs : list TableRow) :
  foldl (λ self row, (InsertQuery.add_row self row).2) q rs
  = InsertQuery.mk (InsertQuery.session q) (InsertQuery.rows_to_insert q ++ rs).
Proof.
  revert q. induction rs as [|r rs IH]; intros q; simpl.
  - rewrite app_nil_r. by destruct q.
  - rewrite IH. simpl. by rewrite <- app_assoc.
Qed.

Lemma update_rows_fold (q : RowUpdateQuery.t) (rs : list TableRow) :
  foldl (λ self row, (RowUpdateQuery.add_row self row).2) q rs
  = RowUpdateQuery.mk (RowUpdateQuery.session q) (RowUpdateQuery.rows_to_update q ++ rs).
Proof.
  revert q. induction rs as [|r rs IH]; intros q; simpl.
  - rewrite app_nil_r. by destruct q.
  - rewrite IH. simpl. by rewrite <- app_assoc.
Qed.

Lemma delete_rows_fold (q : RowDeleteQuery.t) (rs : list TableRow) :
  foldl (λ self row, (RowDeleteQuery.add_row self row).2) q rs
  = RowDeleteQuery.mk (RowDeleteQuery.session q) (RowDeleteQuery.rows_to_delete q ++ rs).
Proof.
  revert q. induction rs as [|r rs IH]; intros q; simpl.
  - rewrite app_nil_r. by destruct q.
  - rewrite IH. simpl. by rewrite <- app_assoc.
Qed.

(** X17. [rows] of each row query appends its arguments, in order, after
    the rows already held and returns the query, so [rows(a).rows(b)] holds
    what [rows(a, b)] holds.  This is so for [RowDeleteQuery] too: although
    its [add_row] returns [None], a call chained on its [rows] runs. *)
Theorem rows_append_and_return_self (qi : InsertQuery.t) (qu : RowUpdateQuery.t)
    (qd : RowDeleteQuery.t) (a b : list TableRow) :
  InsertQuery.rows qi a
  = (ReturnsSelf, InsertQuery.mk (InsertQuery.session qi)
                                 (InsertQuery.rows_to_insert qi ++ a))
  ∧ RowUpdateQuery.rows qu a
    = (ReturnsSelf, RowUpdateQuery.mk (RowUpdateQuery.session qu)
                                      (RowUpdateQuery.rows_to_update qu ++ a))
  ∧ RowDeleteQuery.rows qd a
    = (ReturnsSelf, RowDeleteQuery.mk (RowDeleteQuery.session qd)
                                      (RowDeleteQuery.rows_to_delete qd ++ a))
  ∧ chained (RowDeleteQuery.rows qd a) "rows" (λ q, RowDeleteQuery.rows q b)
    = Ok (RowDeleteQuery.rows qd (a ++ b))
  ∧ chained (InsertQuery.rows qi a) "rows" (λ q, InsertQuery.rows q b)
    = Ok (InsertQuery.rows qi (a ++ b))
  ∧ chained (RowUpdateQuery.rows qu a) "rows" (λ q, RowUpdateQuery.rows q b)
    = Ok (RowUpdateQuery.rows qu (a ++ b)).
Proof.
  unfold InsertQuery.rows, RowUpdateQuery.rows, RowDeleteQuery.rows, chained.
  rewrite !insert_rows_fold, !update_rows_fold, !delete_rows_fold. simpl.
  rewrite !app_assoc. done.
Qed.

Lemma compile_rows_counter (method : TableRow → Emitting (string * dict pyval))
    (rows : list TableRow) (queries : list (string * dict pyval)) (counter : count) :
  (foldl (compile_row method) (queries, counter) rows).2
  = spec.counter_after method rows counter.
Proof.
  revert queries counter. induction rows as [|row rows IH]; intros queries counter; [done|].
  cbn [foldl spec.counter_after]. unfold compile_row at 2.
  destruct (run (method row) counter) as [query counter']. apply IH.
Qed.

Lemma compile_rows_snoc (method : TableRow → Emitting (string * dict pyval))
    (rows : list TableRow) (row : TableRow) :
  (foldl (compile_row method) ([], 0) (rows ++ [row])).1
  = (foldl (compile_row method) ([], 0) rows).1
      ++ [(run (method row) (spec.counter_after method rows 0)).1].
Proof.
  rewrite foldl_app, <- (compile_rows_counter method rows [] 0). simpl.
  destruct (foldl (compile_row method) ([], 0) rows) as [queries counter]. simpl.
  by destruct (run (method row) counter).
Qed.

(** X18. Adding a row to a row query leaves the statements of the rows
    already held as they are: [generate_sql] of the longer query is
    [generate_sql] of the shorter one followed by the new row's pair, which
    is built with the counter where the earlier rows left it, that is,
    after each of them has drawn its placeholders from it in turn,
    starting at zero. *)
Theorem added_row_keeps_earlier_statements `{RowSql} (qi : InsertQuery.t)
    (qu : RowUpdateQuery.t) (qd : RowDeleteQuery.t) (row : TableRow) :
  InsertQuery.generate_sql (InsertQuery.add_row qi row).2
  = InsertQuery.generate_sql qi
      ++ [(run (_get_insert_sql row (InsertQuery.session qi))
               (spec.counter_after (λ r, _get_insert_sql r (InsertQuery.session qi))
                                   (InsertQuery.rows_to_insert qi) 0)).1]
  ∧ RowUpdateQuery.generate_sql (RowUpdateQuery.add_row qu row).2
    = RowUpdateQuery.generate_sql qu
        ++ [(run (_get_update_sql row (RowUpdateQuery.session qu))
                 (spec.counter_after (λ r, _get_update_sql r (RowUpdateQuery.session qu))
                                     (RowUpdateQuery.rows_to_update qu) 0)).1]
  ∧ RowDeleteQuery.generate_sql (RowDeleteQuery.add_row qd row).2
    = RowDeleteQuery.generate_sql qd
        ++ [(run (_get_delete_sql row (RowDeleteQuery.session qd))
                 (spec.counter_after (λ r, _get_delete_sql r (RowDeleteQuery.session qd))
                                     (RowDeleteQuery.rows_to_delete qd) 0)).1].
Proof.
  unfold InsertQuery.generate_sql, RowUpdateQuery.generate_sql, RowDeleteQuery.generate_sql.
  simpl. rewrite !compile_rows_snoc. done.
Qed.

(** * Further properties of columns *)

(** X19. The alias under which [generate_sql] projects a column is the
    key under which the row mapper looks it up: the projection entry is the
    quoted full name, [AS], and the quoted alias; the quoted alias is the
    unquoted one between double quotes; and the key that [map_columns]
    uses for a column of the query's table equals that alias exactly when
    the column is owned by that table. *)
Theorem projected_alias_is_mapping_key (tbl : Table) (c : Column) :
  SelectQuery.column_name c
  = md_column.quoted_fullname c +:+ " AS " +:+ md_column.alias_name c None true
  ∧ md_column.alias_name c None true
    = dquote +:+ md_column.alias_name c None false +:+ dquote
  ∧ (md_column.alias_name c (Some (__tablename__ tbl)) false
     = md_column.alias_name c None false
     ↔ table c = __tablename__ tbl).
Proof.
  split; [|split; [done|]].
  - unfold SelectQuery.column_name, md_column.quoted_fullname.
    by rewrite !append_assoc.
  - unfold md_column.alias_name. split; [|by intros ->].
    intros Heq. apply String.app_inj in Heq.
    rewrite <- !(append_assoc _ "_" _) in Heq.
    apply append_inj_r, append_inj_r in Heq. done.
Qed.

(** X20. The identity check that [==] performs between column objects is
    an equivalence: every column equals itself, the check is symmetric and
    transitive, and [!=] between columns is always its negation.  Columns
    of two different table objects are never equal, also when the tables
    and the columns bear the same names. *)
Theorem column_identity_is_equivalence (a b c : ColumnObject) :
  md_column.__eq__ a (md_column.AColumn a) = md_column.Bool true
  ∧ md_column.__eq__ a (md_column.AColumn b) = md_column.__eq__ b (md_column.AColumn a)
  ∧ (md_column.__eq__ a (md_column.AColumn b) = md_column.Bool true →
     md_column.__eq__ b (md_column.AColumn c) = md_column.Bool true →
     md_column.__eq__ a (md_column.AColumn c) = md_column.Bool true)
  ∧ (∃ same, md_column.__eq__ a (md_column.AColumn b) = md_column.Bool same
             ∧ md_column.__ne__ a (md_column.AColumn b) = md_column.Bool (negb same))
  ∧ (table_id a ≠ table_id b →
     md_column.__eq__ a (md_column.AColumn b) = md_column.Bool false
     ∧ md_column.__ne__ a (md_column.AColumn b) = md_column.Bool true).
Proof.
  unfold md_column.__eq__, md_column.__ne__.
  split; [|split; [|split; [|split]]].
  - by rewrite !bool_decide_eq_true_2.
  - f_equal. apply eq_true_iff_eq.
    rewrite !andb_true_iff, !bool_decide_eq_true. intuition congruence.
  - intros [= Hab] [= Hbc]. f_equal.
    apply andb_true_iff in Hab as [?%bool_decide_eq_true ?%bool_decide_eq_true].
    apply andb_true_iff in Hbc as [?%bool_decide_eq_true ?%bool_decide_eq_true].
    apply andb_true_iff. rewrite !bool_decide_eq_true. split; congruence.
  - eexists. split; [reflexivity|]. f_equal.
    rewrite !bool_decide_not, negb_andb. done.
  - intros Hne. by rewrite bool_decide_eq_false_2, (bool_decide_eq_true_2 _ Hne).
Qed.
